(** * Scriptor: the plugin management subsystem of [scriptor.py]

    A shallow embedding of the classes [Plugin], [PluginAPI] and
    [PluginManager] (lines 43-138 of the source), of their callers in
    the main window, and the properties of loading, installing,
    uninstalling and hook dispatch.

    Modelling boundary.
    - Plugin code is opaque to the host.  A callback is a transformer of
      a world [W] that either returns or raises; the registration
      function is a finite script of calls on the capability object.
      Divergence of plugin code is not a behaviour of the model.
    - Every handler of the source is written [except Exception].  The
      first part ([Section Model]) is the manager on plugin code that
      raises instances of [Exception] only, where such a handler catches
      whatever is raised.  [Module Strict] is the manager with the test
      of the class that the handlers make, on plugin code that may raise
      anything, and with a plugins root that may be missing; the two
      agree where no plugin code raises outside [Exception].
    - The disk is the content of the directory [PLUGINS_DIR]; every path
      the manager handles is one component below that root, on a file
      system with case-sensitive names.
    - Plugin objects live in a store indexed by locations, so that the
      capability object and the plugin table can alias one object as
      they do in the source. *)

From stdpp Require Import base strings list gmap pretty.

(** ** Python values shared by every part of the model *)

(** An exception: the name of its class, [str(e)], and the frames that
    [traceback.format_exc()] prints for it. *)
Record exn := Exn {
  exn_class : string;
  exn_str : string;
  exn_frames : string
}.

Definition nl : string := String (Ascii.ascii_of_nat 10) EmptyString.

(** [repr] of a string without quotes or backslashes. *)
Definition py_repr (s : string) : string := "'" +:+ s +:+ "'".

Definition FileNotFoundError (msg : string) : exn := Exn "FileNotFoundError" msg "".
Definition NotADirectoryError (msg : string) : exn := Exn "NotADirectoryError" msg "".
Definition RuntimeError (msg : string) : exn := Exn "RuntimeError" msg "".
Definition KeyError (key : string) : exn := Exn "KeyError" (py_repr key) "".
Definition TypeError (msg : string) : exn := Exn "TypeError" msg "".

(** [traceback.format_exc()] inside a handler for [e]. *)
Definition format_exc (e : exn) : string :=
  "Traceback (most recent call last):" +:+ nl +:+ exn_frames e
    +:+ exn_class e +:+ ": " +:+ exn_str e +:+ nl.

(** What a call of plugin code does: it returns (the value is ignored by
    the host) or raises. *)
Inductive outcome := Returned | Raised (e : exn).

Inductive result (A : Type) := Return (a : A) | Raise (e : exn).
Arguments Return {A} a.
Arguments Raise {A} e.

Definition PLUGINS_DIR : string := "plugins".

(** [str(PLUGINS_DIR / n)] *)
Definition str_path (n : string) : string := PLUGINS_DIR +:+ "/" +:+ n.

Definition loc := nat.

(** ** Python dictionaries in insertion order *)

Fixpoint dict_get {V} (k : string) (d : list (string * V)) : option V :=
  match d with
  | [] => None
  | (k', v) :: r => if decide (k' = k) then Some v else dict_get k r
  end.

(** [d[k] = v]: an existing key keeps its position, a new key goes last. *)
Fixpoint dict_set {V} (k : string) (v : V) (d : list (string * V)) : list (string * V) :=
  match d with
  | [] => [(k, v)]
  | (k', v') :: r =>
      if decide (k' = k) then (k, v) :: r else (k', v') :: dict_set k v r
  end.

(** [d.pop(k, None)] *)
Fixpoint dict_pop {V} (k : string) (d : list (string * V)) : list (string * V) :=
  match d with
  | [] => []
  | (k', v) :: r => if decide (k' = k) then dict_pop k r else (k', v) :: dict_pop k r
  end.

Section Model.
Context {W Args : Type}.

(** ** Plugin code *)

(** A value handed to [register_hook]: a callable, given by its effect
    on the world for given arguments, or an object that cannot be
    called (of the named type). *)
Inductive pyvalue :=
  | Callable (f : Args → W → outcome * W)
  | NotCallable (type_name : string).

(** The run of [register(api)], as the script of its calls on the
    capability object. *)
Inductive reg_prog :=
  | RegReturn
  | RegRaise (e : exn)
  | RegHook (name : string) (func : pyvalue) (k : reg_prog)
  | RegAppName (k : string → reg_prog).

(** A file, given by what [spec.loader.exec_module] does on its text:
    the top-level code raises, or a module results that has an
    attribute [register] or lacks it. *)
Inductive pyfile :=
  | ExecRaises (e : exn)
  | ExecModule (register : option reg_prog).

Record PyModule := {
  mod_name : string;
  mod_register : option reg_prog
}.

(** ** class Plugin *)
Record Plugin := {
  name : string;
  path : string;
  module : option PyModule;
  hooks : gmap string (list pyvalue)
}.

(** [Plugin.__init__] *)
Definition Plugin_init (name path : string) : Plugin :=
  {| name := name; path := path; module := None; hooks := ∅ |}.

#[export] Instance Plugin_inhabited : Inhabited Plugin := populate (Plugin_init "" "").

(** ** The state the manager works on *)

Inductive entry :=
  | RegularFile
  | Directory (files : gmap string pyfile).

(** One invocation of a hook callback by the manager. *)
Record call := {
  call_plugin : string;
  call_hook_name : string;
  call_func : pyvalue;
  call_args : Args;
  call_outcome : outcome
}.

Record state := {
  plugins : list (string * loc);   (* self.plugins *)
  heap : gmap loc Plugin;          (* the Plugin objects *)
  next_loc : loc;                  (* the next object to allocate *)
  disk : gmap string entry;        (* entries of PLUGINS_DIR *)
  stdout : list string;            (* output of print, one item per call *)
  world : W;                       (* what plugin callbacks act on *)
  calls : list call                (* callbacks invoked so far *)
}.

Definition set_plugins (f : list (string * loc) → list (string * loc)) (st : state) : state :=
  {| plugins := f (plugins st); heap := heap st; next_loc := next_loc st;
     disk := disk st; stdout := stdout st; world := world st; calls := calls st |}.

Definition set_heap (l : loc) (p : Plugin) (st : state) : state :=
  {| plugins := plugins st;
     heap := <[l := p]> (heap st);
     next_loc := next_loc st;
     disk := disk st; stdout := stdout st; world := world st; calls := calls st |}.

Definition set_next_loc (n : loc) (st : state) : state :=
  {| plugins := plugins st; heap := heap st; next_loc := n;
     disk := disk st; stdout := stdout st; world := world st; calls := calls st |}.

Definition set_disk (f : gmap string entry → gmap string entry) (st : state) : state :=
  {| plugins := plugins st; heap := heap st; next_loc := next_loc st;
     disk := f (disk st); stdout := stdout st; world := world st; calls := calls st |}.

Definition set_stdout (f : list string → list string) (st : state) : state :=
  {| plugins := plugins st; heap := heap st; next_loc := next_loc st;
     disk := disk st; stdout := f (stdout st); world := world st; calls := calls st |}.

Definition set_world_calls (w : W) (c : call) (st : state) : state :=
  {| plugins := plugins st; heap := heap st; next_loc := next_loc st;
     disk := disk st; stdout := stdout st; world := w; calls := calls st ++ [c] |}.

(** ** The monad of manager code: state and exceptions *)

Definition M (A : Type) : Type := state → result A * state.

Definition ret {A} (a : A) : M A := λ st, (Return a, st).

Definition bind {A B} (m : M A) (k : A → M B) : M B := λ st,
  match m st with
  | (Return a, st') => k a st'
  | (Raise e, st') => (Raise e, st')
  end.

Definition raise {A} (e : exn) : M A := λ st, (Raise e, st).

(** [try: m  except Exception as e: h e], where [m] raises instances of
    [Exception] only *)
Definition try_except {A} (m : M A) (h : exn → M A) : M A := λ st,
  match m st with
  | (Return a, st') => (Return a, st')
  | (Raise e, st') => h e st'
  end.

Definition gets {A} (f : state → A) : M A := λ st, (Return (f st), st).

Definition modify (f : state → state) : M unit := λ st, (Return tt, f st).

#[export] Instance M_ret : MRet M := @ret.
#[export] Instance M_bind : MBind M := λ A B k m, bind m k.

(** [for x in l: body x] *)
Fixpoint for_each {A} (l : list A) (body : A → M unit) : M unit :=
  match l with
  | [] => ret tt
  | x :: r => body x ;; for_each r body
  end.

(** [print(line)] *)
Definition print (line : string) : M unit :=
  modify (set_stdout (λ out, out ++ [line])).

(** ** The disk below [PLUGINS_DIR] *)

Definition is_dir (fs : gmap string entry) (n : string) : bool :=
  match fs !! n with
  | Some (Directory _) => true
  | _ => false
  end.

(** The file [PLUGINS_DIR / d / f], when [d] is a directory holding it. *)
Definition dir_file (fs : gmap string entry) (d f : string) : option pyfile :=
  match fs !! d with
  | Some (Directory files) => files !! f
  | _ => None
  end.

(** [(PLUGINS_DIR / n).exists()]: the empty name and [.] denote the
    root itself and [..] its parent, every other name an entry. *)
Definition path_exists (fs : gmap string entry) (n : string) : bool :=
  bool_decide (n ∈ [""; "."; ".."]) || bool_decide (is_Some (fs !! n)).

(** [Path.iterdir()] on a root that is there: the names of the
    entries, in a fixed order on which nothing below relies. *)
Definition iterdir (fs : gmap string entry) : list string :=
  (map_to_list fs).*1.

(** [shutil.rmtree(PLUGINS_DIR / n)] *)
Definition rmtree (n : string) : M unit := λ st,
  match disk st !! n with
  | Some (Directory _) => (Return tt, set_disk (delete n) st)
  | Some RegularFile =>
      (Raise (NotADirectoryError
                ("[Errno 20] Not a directory: " +:+ py_repr (str_path n))), st)
  | None =>
      (Raise (FileNotFoundError
                ("[Errno 2] No such file or directory: " +:+ py_repr (str_path n))), st)
  end.

(** ** class PluginAPI *)

(** The capability object refers to its plugin object; its second
    field, the manager, is the one state all of this code runs on. *)
Record PluginAPI := { _plugin : loc }.

Definition set_hooks (h : gmap string (list pyvalue)) (p : Plugin) : Plugin :=
  {| name := name p; path := path p; module := module p; hooks := h |}.

Definition set_module (m : PyModule) (p : Plugin) : Plugin :=
  {| name := name p; path := path p; module := Some m; hooks := hooks p |}.

(** The two statements of [register_hook] on the dictionary [hooks]. *)
Definition add_hook (name : string) (func : pyvalue)
    (hooks : gmap string (list pyvalue)) : gmap string (list pyvalue) :=
  let hooks1 :=
    match hooks !! name with
    | None => <[name := []]> hooks           (* hooks[name] = [] *)
    | Some _ => hooks
    end in
  alter (λ funcs, funcs ++ [func]) name hooks1.   (* hooks[name].append(func) *)

Definition register_hook (self : PluginAPI) (name : string) (func : pyvalue) : M unit :=
  modify (λ st,
    let p := heap st !!! _plugin self in
    set_heap (_plugin self) (set_hooks (add_hook name func (hooks p)) p) st).

Definition app_name (self : PluginAPI) : string := "Scriptor".

(** [module.register(api)] for a module whose [register] runs as [r]. *)
Fixpoint run_register (r : reg_prog) (api : PluginAPI) : M unit :=
  match r with
  | RegReturn => ret tt
  | RegRaise e => raise e
  | RegHook n f k => register_hook api n f ;; run_register k api
  | RegAppName k => run_register (k (app_name api)) api
  end.

(** ** class PluginManager *)

(** [Plugin(name, path)]: a new object in the store. *)
Definition new_Plugin (name path : string) : M loc := λ st,
  let l := next_loc st in
  (Return l, set_next_loc (S l) (set_heap l (Plugin_init name path) st)).

(** [spec.loader.exec_module(module)] *)
Definition exec_module (mod_name : string) (src : pyfile) : M PyModule :=
  match src with
  | ExecRaises e => raise e
  | ExecModule r => ret {| mod_name := mod_name; mod_register := r |}
  end.

Definition load_plugin_from_dir (path : string) : M unit :=
  let name := path in
  plugin ← new_Plugin name path;
  main ← gets (λ st, dir_file (disk st) path "plugin-main.py");
  match main with
  | None => raise (FileNotFoundError ("plugin-main.py missing in " +:+ str_path path))
  | Some src =>
      module ← try_except (exec_module ("scriptor_plugin_" +:+ name) src)
        (λ e, raise (RuntimeError
           ("Error executing plugin-main.py: " +:+ exn_str e +:+ nl +:+ format_exc e)));
      match mod_register module with
      | None => raise (RuntimeError "plugin-main.py must provide register(api) function")
      | Some register =>
          let api := {| _plugin := plugin |} in
          try_except (run_register register api)
            (λ e, raise (RuntimeError
               ("Plugin register() failed: " +:+ exn_str e +:+ nl +:+ format_exc e))) ;;
          modify (λ st, set_heap plugin (set_module module (heap st !!! plugin)) st) ;;
          modify (set_plugins (dict_set name plugin)) ;;
          print ("Loaded plugin: " +:+ name)
      end
  end.

Definition load_all_plugins : M unit :=
  modify (set_plugins (λ _, [])) ;;
  ps ← gets (λ st, iterdir (disk st));
  for_each ps (λ p,
    d ← gets (λ st, is_dir (disk st) p);
    if (d : bool) then
      try_except (load_plugin_from_dir p)
        (λ e, print ("Failed loading plugin " +:+ str_path p +:+ " " +:+ exn_str e))
    else ret tt).

(** A zip archive at a path outside the plugins root: [Path.stem] of
    its path and its members, each a relative path with its file. *)
Record scpl_archive := {
  scpl_stem : string;
  scpl_members : list (string * pyfile)
}.

Definition namelist (z : scpl_archive) : list string := (scpl_members z).*1.

(** The files [z.extractall] writes; of two members of one name the
    later one stays. *)
Definition extracted (z : scpl_archive) : gmap string pyfile :=
  foldl (λ m kv, <[kv.1 := kv.2]> m) ∅ (scpl_members z).

Definition extractall (z : scpl_archive) (dest : string) : M unit :=
  modify (set_disk (<[dest := Directory (extracted z)]>)).

(** The loop [while dest.exists()] that sets [dest] to [base], an
    underscore and [idx], and increments [idx]; with a bound on the
    number of iterations. *)
Fixpoint while_exists (fuel : nat) (fs : gmap string entry)
    (base dest : string) (idx : nat) : option string :=
  if path_exists fs dest then
    match fuel with
    | O => None
    | S fuel' => while_exists fuel' fs base (base +:+ "_" +:+ pretty idx) (S idx)
    end
  else Some dest.

(** The loop of [install_plugin]; more iterations than the disk has
    entries are never needed. *)
Definition choose_dest (fs : gmap string entry) (base : string) : option string :=
  while_exists (S (size fs)) fs base base 1.

(** [install_plugin(scpl_path)], where [scpl] is the archive found at
    [scpl_path], if a file exists there. *)
Definition install_plugin (scpl_path : string) (scpl : option scpl_archive) : M string :=
  match scpl with
  | None => raise (FileNotFoundError scpl_path)
  | Some z =>
      if bool_decide ("plugin-main.py" ∈ namelist z) then
        d ← gets (λ st, choose_dest (disk st) (scpl_stem z));
        match d with
        | None =>
            (* the bound of [choose_dest] is never reached: [choose_dest_spec] *)
            raise (RuntimeError "install_plugin: iteration bound reached")
        | Some dest =>
            extractall z dest ;;
            load_plugin_from_dir dest ;;
            ret dest
        end
      else raise (RuntimeError ".scpl must contain plugin-main.py at root")
  end.

Definition uninstall_plugin (name : string) : M bool :=
  ps ← gets plugins;
  match dict_get name ps with
  | None => raise (KeyError name)
  | Some l =>
      path ← gets (λ st, path (heap st !!! l));
      modify (set_plugins (dict_pop name)) ;;
      rmtree path ;;
      ret true
  end.

(** The call of a registered value [f] on the arguments of the hook. *)
Definition invoke (plugin_name hook_name : string) (f : pyvalue) (args : Args) : M unit := λ st,
  let '(o, w) :=
    match f with
    | Callable g => g args (world st)
    | NotCallable t =>
        (Raised (TypeError (py_repr t +:+ " object is not callable")), world st)
    end in
  let c := {| call_plugin := plugin_name; call_hook_name := hook_name;
              call_func := f; call_args := args; call_outcome := o |} in
  (match o with Returned => Return tt | Raised e => Raise e end,
   set_world_calls w c st).

Definition hook_error_line (plugin_name hook_name : string) (e : exn) : string :=
  "Plugin " +:+ plugin_name +:+ " hook " +:+ hook_name +:+ " error:" +:+ nl
    +:+ " " +:+ format_exc e.

Definition call_hook (hook_name : string) (args : Args) : M unit :=
  ps ← gets (λ st, (plugins st).*2);
  for_each ps (λ l,
    plugin ← gets (λ st, heap st !!! l);
    match hooks plugin !! hook_name with
    | None | Some [] => ret tt
    | Some funcs =>
        for_each funcs (λ f,
          try_except (invoke (name plugin) hook_name f args)
            (λ e, print (hook_error_line (name plugin) hook_name e)))
    end).

(** [PluginManager.__init__] on a plugins root with the given entries. *)
Definition PluginManager_init (fs : gmap string entry) (w : W) : state :=
  (load_all_plugins
     {| plugins := []; heap := ∅; next_loc := 0;
        disk := fs; stdout := []; world := w; calls := [] |}).2.

(** ** What the properties are stated with *)

(** The calls of [register_hook] that a run of [register] makes, in
    order, and how the run ends. *)
Fixpoint registered (r : reg_prog) : list (string * pyvalue) :=
  match r with
  | RegReturn | RegRaise _ => []
  | RegHook n f k => (n, f) :: registered k
  | RegAppName k => registered (k "Scriptor")
  end.

Fixpoint reg_outcome (r : reg_prog) : outcome :=
  match r with
  | RegReturn => Returned
  | RegRaise e => Raised e
  | RegHook _ _ k => reg_outcome k
  | RegAppName k => reg_outcome (k "Scriptor")
  end.

(** The dictionary [hooks] after the given calls of [register_hook]. *)
Definition hooks_after (regs : list (string * pyvalue))
    (hooks : gmap string (list pyvalue)) : gmap string (list pyvalue) :=
  foldl (λ h nf, add_hook nf.1 nf.2 h) hooks regs.

Definition to_result (o : outcome) : result unit :=
  match o with
  | Returned => Return tt
  | Raised e => Raise e
  end.

(** The object [load_plugin_from_dir] has built for [path] once
    [register], running as [r], has ended. *)
Definition registered_plugin (path : string) (r : reg_prog) : Plugin :=
  set_hooks (hooks_after (registered r) ∅) (Plugin_init path path).

(** The values a run of [register] hands to [register_hook] under the
    name [hook_name], in order. *)
Definition registered_for (hook_name : string) (r : reg_prog) : list pyvalue :=
  (filter (λ nf, nf.1 = hook_name) (registered r)).*2.

(** [plugin.hooks.get(hook_name)], an absent name read as no callback. *)
Definition funcs_of (p : Plugin) (hook_name : string) : list pyvalue :=
  default [] (hooks p !! hook_name).

Definition call_target (c : call) : string * string * pyvalue * Args :=
  (call_plugin c, call_hook_name c, call_func c, call_args c).

(** The callbacks of the plugin table for a hook: plugin by plugin in
    the order of the table, each plugin's in the order of its list. *)
Definition dispatch_targets (st : state) (hook_name : string) (args : Args)
    : list (string * string * pyvalue * Args) :=
  l ← (plugins st).*2;
  (λ f, (name (heap st !!! l), hook_name, f, args)) <$> funcs_of (heap st !!! l) hook_name.

(** The lines [call_hook] prints for the calls that raised. *)
Definition error_lines (cs : list call) : list string :=
  omap (λ c, match call_outcome c with
             | Returned => None
             | Raised e => Some (hook_error_line (call_plugin c) (call_hook_name c) e)
             end) cs.

(** The [k]-th name the loop of [install_plugin] tries. *)
Definition candidate (base : string) (k : nat) : string :=
  match k with
  | O => base
  | S _ => base +:+ "_" +:+ pretty k
  end.

(** The exception [load_plugin_from_dir] raises for an entrypoint file,
    if any. *)
Definition entrypoint_error (src : pyfile) : option exn :=
  match src with
  | ExecRaises e =>
      Some (RuntimeError
              ("Error executing plugin-main.py: " +:+ exn_str e +:+ nl +:+ format_exc e))
  | ExecModule None =>
      Some (RuntimeError "plugin-main.py must provide register(api) function")
  | ExecModule (Some r) =>
      match reg_outcome r with
      | Returned => None
      | Raised e =>
          Some (RuntimeError
                  ("Plugin register() failed: " +:+ exn_str e +:+ nl +:+ format_exc e))
      end
  end.

Definition load_error (fs : gmap string entry) (path : string) : option exn :=
  match dir_file fs path "plugin-main.py" with
  | None => Some (FileNotFoundError ("plugin-main.py missing in " +:+ str_path path))
  | Some src => entrypoint_error src
  end.

(** Whether [load_plugin_from_dir] succeeds on a path. *)
Definition loads (fs : gmap string entry) (path : string) : bool :=
  match load_error fs path with
  | None => true
  | Some _ => false
  end.

(** The line [load_all_plugins] prints for a directory. *)
Definition load_line (fs : gmap string entry) (p : string) : string :=
  match load_error fs p with
  | None => "Loaded plugin: " +:+ p
  | Some e => "Failed loading plugin " +:+ str_path p +:+ " " +:+ exn_str e
  end.

(** The plugin table is a dictionary (no key twice) of allocated
    objects, each filed under its own name. *)
Definition table_wf (st : state) : Prop :=
  NoDup (plugins st).*1 ∧
  Forall (λ nl, nl.2 < next_loc st ∧ name (heap st !!! nl.2) = nl.1) (plugins st).

#[export] Instance table_wf_dec st : Decision (table_wf st).
Proof. unfold table_wf. apply _. Defined.

(** What dispatch leaves alone: the table, the objects, the disk. *)
Definition host_eq (st st' : state) : Prop :=
  plugins st' = plugins st ∧ heap st' = heap st ∧
  next_loc st' = next_loc st ∧ disk st' = disk st.

End Model.

(** * The manager with the class its handlers name *)

(** Whether an exception is an instance of [Exception]: it is unless
    its class is [BaseException] or one of the classes derived from it
    beside [Exception] ([SystemExit], which [sys.exit()] raises,
    [KeyboardInterrupt], [GeneratorExit], [BaseExceptionGroup],
    [CancelledError] of asyncio).  An exception of a class that plugin
    code derives from one of these is written with that name. *)
Definition is_Exception (e : exn) : bool :=
  bool_decide (exn_class e ∉ ["BaseException"; "SystemExit"; "KeyboardInterrupt";
                               "GeneratorExit"; "BaseExceptionGroup"; "CancelledError"]).

(** [try: m  except C as e: h e], for the class [C] given by its test:
    an exception that is no instance of [C] leaves the statement. *)
Definition try_except_in {W Args A} (C : exn → bool)
    (m : @M W Args A) (h : exn → @M W Args A) : @M W Args A := λ st,
  match m st with
  | (Return a, st') => (Return a, st')
  | (Raise e, st') => if C e then h e st' else (Raise e, st')
  end.

(** The methods of [PluginManager] that hold a handler, each handler
    with its test [except Exception]. *)
Module Strict.
Section Strict.
Context {W Args : Type}.

(** An exception outside [Exception] from the top level of
    [plugin-main.py] or from [register] is not wrapped in a
    [RuntimeError]: it leaves the load as it is. *)
Definition load_plugin_from_dir (path : string) : @M W Args unit :=
  let name := path in
  plugin ← new_Plugin name path;
  main ← gets (λ st, dir_file (disk st) path "plugin-main.py");
  match main with
  | None => raise (FileNotFoundError ("plugin-main.py missing in " +:+ str_path path))
  | Some src =>
      module ← try_except_in is_Exception (exec_module ("scriptor_plugin_" +:+ name) src)
        (λ e, raise (RuntimeError
           ("Error executing plugin-main.py: " +:+ exn_str e +:+ nl +:+ format_exc e)));
      match mod_register module with
      | None => raise (RuntimeError "plugin-main.py must provide register(api) function")
      | Some register =>
          let api := {| _plugin := plugin |} in
          try_except_in is_Exception (run_register register api)
            (λ e, raise (RuntimeError
               ("Plugin register() failed: " +:+ exn_str e +:+ nl +:+ format_exc e))) ;;
          modify (λ st, set_heap plugin (set_module module (heap st !!! plugin)) st) ;;
          modify (set_plugins (dict_set name plugin)) ;;
          print ("Loaded plugin: " +:+ name)
      end
  end.

(** [PLUGINS_DIR.iterdir()], for the error of the operating system on
    listing the root, if any: the manager creates the root when it is
    constructed and never again, so it can be gone ([FileNotFoundError]),
    replaced by a file ([NotADirectoryError]) or unreadable
    ([PermissionError]) at a later listing. *)
Definition iterdir (root : option exn) : @M W Args (list string) :=
  match root with
  | None => gets (λ st, iterdir (disk st))
  | Some e => raise e
  end.

(** The loop header stands outside the [try] of the loop body. *)
Definition load_all_plugins (root : option exn) : @M W Args unit :=
  modify (set_plugins (λ _, [])) ;;
  ps ← iterdir root;
  for_each ps (λ p,
    d ← gets (λ st, is_dir (disk st) p);
    if (d : bool) then
      try_except_in is_Exception (load_plugin_from_dir p)
        (λ e, print ("Failed loading plugin " +:+ str_path p +:+ " " +:+ exn_str e))
    else ret tt).

(** An exception outside [Exception] from a callback leaves both
    loops. *)
Definition call_hook (hook_name : string) (args : Args) : @M W Args unit :=
  ps ← gets (λ st, (plugins st).*2);
  for_each ps (λ l,
    plugin ← gets (λ st, heap st !!! l);
    match hooks plugin !! hook_name with
    | None | Some [] => ret tt
    | Some funcs =>
        for_each funcs (λ f,
          try_except_in is_Exception (invoke (name plugin) hook_name f args)
            (λ e, print (hook_error_line (name plugin) hook_name e)))
    end).

End Strict.
End Strict.

Section Dispatch.
Context {W Args : Type}.

(** ** What the properties of dispatch are stated with *)

(** What a registered value does when it is called: a callable acts on
    the world, another object makes the call itself a [TypeError]. *)
Definition apply_value (f : @pyvalue W Args) (args : Args) (w : W) : outcome * W :=
  match f with
  | Callable g => g args w
  | NotCallable t => (Raised (TypeError (py_repr t +:+ " object is not callable")), w)
  end.

(** The callbacks applied one after the other, each to the world the
    one before it has left, as long as what they raise is of class [C]:
    the calls made with their outcomes, the world at the end, and the
    exception outside [C] that ended the run, if any. *)
Fixpoint run_callbacks (C : exn → bool) (ts : list (string * string * @pyvalue W Args * Args))
    (w : W) : list (@call W Args) * W * option exn :=
  match ts with
  | [] => ([], w, None)
  | (pn, h, f, args) :: ts' =>
      let ow := apply_value f args w in
      let c := {| call_plugin := pn; call_hook_name := h; call_func := f;
                  call_args := args; call_outcome := ow.1 |} in
      let rest :=
        let r := run_callbacks C ts' ow.2 in (c :: r.1.1, r.1.2, r.2) in
      match ow.1 with
      | Returned => rest
      | Raised e => if C e then rest else ([c], ow.2, Some e)
      end
  end.

(** The lines printed for the calls whose exception was caught. *)
Definition caught_lines (C : exn → bool) (cs : list (@call W Args)) : list string :=
  omap (λ c, match call_outcome c with
             | Returned => None
             | Raised e =>
                 if C e then Some (hook_error_line (call_plugin c) (call_hook_name c) e)
                 else None
             end) cs.

(** The state after a dispatch that made the calls [cs], left the world
    [w] and printed [lines]. *)
Definition dispatched (st : @state W Args) (cs : list call) (w : W) (lines : list string)
    : state :=
  {| plugins := plugins st; heap := heap st; next_loc := next_loc st; disk := disk st;
     stdout := stdout st ++ lines; world := w; calls := calls st ++ cs |}.

(** Whether the plugin code of a directory raises outside [Exception]
    when it is loaded: at the top level of [plugin-main.py] or in
    [register]. *)
Definition escapes (fs : gmap string (@entry W Args)) (path : string) : bool :=
  match dir_file fs path "plugin-main.py" with
  | Some (ExecRaises e) => negb (is_Exception e)
  | Some (ExecModule (Some r)) =>
      match reg_outcome r with
      | Returned => false
      | Raised e => negb (is_Exception e)
      end
  | _ => false
  end.

End Dispatch.

(** * The callers of the manager and the editor's pure parts *)

Section Callers.
Context {W Args : Type}.

(** ** Sequences of manager calls *)

Inductive op :=
  | Op_load_all
  | Op_install (scpl_path : string) (scpl : option (@scpl_archive W Args))
  | Op_uninstall (name : string)
  | Op_call_hook (hook_name : string) (args : Args).

(** The state after a call, whether it returned or raised. *)
Definition run_op (o : op) (st : @state W Args) : state :=
  match o with
  | Op_load_all => (load_all_plugins st).2
  | Op_install scpl_path scpl => (install_plugin scpl_path scpl st).2
  | Op_uninstall name => (uninstall_plugin name st).2
  | Op_call_hook hook_name args => (call_hook hook_name args st).2
  end.

Definition run_ops (os : list op) (st : @state W Args) : state :=
  foldl (λ s o, run_op o s) st os.

(** What the manager keeps of its table: it is well formed, and every
    record is filed under the base name of its path, a directory on
    disk. *)
Definition manager_inv (st : @state W Args) : Prop :=
  table_wf st ∧
  Forall (λ nl, path (heap st !!! nl.2) = nl.1 ∧ is_dir (disk st) nl.1 = true)
    (plugins st).

#[export] Instance manager_inv_dec (st : @state W Args) : Decision (manager_inv st).
Proof. unfold manager_inv. apply _. Defined.

(** ** The plugin actions of the main window (class Scriptor) *)

(** A message box: [QMessageBox.information] or [QMessageBox.warning]
    with its title and text. *)
Inductive dialog :=
  | information (title text : string)
  | warning (title text : string).

(** [Scriptor.install_plugin], for the path the file dialog returns
    (empty when cancelled) and the archive found there. *)
Definition Scriptor_install_plugin (path : string) (scpl : option (@scpl_archive W Args))
    (st : @state W Args) : option dialog * state :=
  if decide (path = "") then (None, st)
  else
    match install_plugin path scpl st with
    | (Return dest, st') =>
        (Some (information "Plugin installed" ("Installed to: " +:+ str_path dest)), st')
    | (Raise e, st') => (Some (warning "Install failed" (exn_str e)), st')
    end.

(** [Scriptor.reload_plugins], for the error of listing the plugins
    root, if any: the box it shows, or the exception that leaves it. *)
Definition Scriptor_reload_plugins (root : option exn) (st : @state W Args)
    : result dialog * state :=
  match Strict.load_all_plugins root st with
  | (Return _, st') =>
      let names := String.concat ", " (plugins st').*1 in
      (Return (information "Plugins reloaded"
         ("Loaded plugins: " +:+ (if decide (names = "") then "none" else names))), st')
  | (Raise e, st') =>
      if is_Exception e then (Return (warning "Reload failed" (exn_str e)), st')
      else (Raise e, st')
  end.

(** [Scriptor.uninstall_plugin], for the item and the flag the input
    dialog returns. *)
Definition Scriptor_uninstall_plugin (name : string) (ok : bool)
    (st : @state W Args) : option dialog * state :=
  match (plugins st).*1 with
  | [] => (Some (information "No plugins" "No installed plugins to remove."), st)
  | _ :: _ =>
      if negb ok || bool_decide (name = "") then (None, st)
      else
        match uninstall_plugin name st with
        | (Return _, st') => (Some (information "Uninstalled" (name +:+ " removed.")), st')
        | (Raise e, st') => (Some (warning "Uninstall failed" (exn_str e)), st')
        end
  end.

End Callers.

Section Adapter.
Context {W V : Type}.

(** ** class Hooks *)

(** The arguments of a dispatch: positional and keyword, the latter in
    the order of the call. *)
Record hook_args := {
  positional : list V;
  keywords : list (string * V)
}.

Definition on_open (path : V) : @M W hook_args unit :=
  Strict.call_hook "on_open" {| positional := [path]; keywords := [] |}.

Definition on_save (path : V) : @M W hook_args unit :=
  Strict.call_hook "on_save" {| positional := [path]; keywords := [] |}.

(** A call [on_event(name, **kwargs)], for the further keywords of the
    call in their order.  A keyword [self] or [name] is a second value
    for a parameter of [on_event], which the call itself rejects; the
    body passes [name] and the rest as keywords to [call_hook], whose
    parameters are [self] and [hook_name], so a keyword [hook_name] is
    rejected there. *)
Definition on_event (name : V) (kwargs : list (string * V)) : @M W hook_args unit :=
  match filter (λ k, k ∈ ["self"; "name"]) kwargs.*1 with
  | k :: _ =>
      raise (TypeError ("Hooks.on_event() got multiple values for argument " +:+ py_repr k))
  | [] =>
      if bool_decide ("hook_name" ∈ kwargs.*1) then
        raise (TypeError
                 "PluginManager.call_hook() got multiple values for argument 'hook_name'")
      else
        Strict.call_hook "on_event"
          {| positional := []; keywords := ("name", name) :: kwargs |}
  end.

End Adapter.

(** ** CodeEditor.line_number_width *)

(** For the advance of the digit 9 in the editor's font and the number
    of blocks of the document. *)
Definition line_number_width (advance9 blockCount : Z) : Z :=
  let digits := Z.of_nat (String.length (pretty (Z.max 1 blockCount))) in
  14 + advance9 * digits.

(** ** MultiLangHighlighter *)

Definition dq : string := String (Ascii.ascii_of_nat 34) EmptyString.

(** Patterns and colours by language. *)
Definition LANG_RULES : list (string * list (string * string)) :=
  [("python",
    [("\b(def|class|return|if|else|elif|for|while|import|from|as|pass|break|continue|with|try|except|finally|lambda|yield|async|await|assert|raise|global|nonlocal|del)\b", "#569cd6");
     (dq +:+ dq +:+ dq +:+ "[\s\S]*?" +:+ dq +:+ dq +:+ dq
        +:+ "|\'\'\'[\s\S]*?\'\'\'", "#ce9178");
     ("\" +:+ dq +:+ ".*?\" +:+ dq +:+ "|'.*?'", "#ce9178");
     ("#.*", "#6a9955");
     ("\b(True|False|None)\b", "#569cd6")]);
   ("javascript",
    [("\b(function|return|var|let|const|if|else|for|while|break|continue|import|from|export|class|new|this|throw|try|catch)\b", "#569cd6");
     ("//.*", "#6a9955");
     ("\" +:+ dq +:+ ".*?\" +:+ dq +:+ "|'.*?'", "#ce9178")]);
   ("html",
    [("<!--[\s\S]*?-->", "#6a9955");
     ("(<[^>]+>)", "#569cd6");
     ("\" +:+ dq +:+ ".*?\" +:+ dq +:+ "|'.*?'", "#ce9178")])].

Definition EXT_MAP : list (string * string) :=
  [(".py", "python"); (".js", "javascript"); (".mjs", "javascript");
   (".html", "html"); (".htm", "html")].

(** The rules [MultiLangHighlighter.__init__] builds for a language:
    each pattern of [LANG_RULES] with a format of its colour. *)
Definition highlighter_rules (language : string) : list (string * string) :=
  default [] (dict_get language LANG_RULES).

Section Highlighter.
(** [Path(fname).suffix.lower()], of the standard library. *)
Variable suffix_lower : string → string.

Definition language_for_filename (fname : string) : string :=
  let ext := if decide (fname = "") then "" else suffix_lower fname in
  default "python" (dict_get ext EXT_MAP).

End Highlighter.

(** * A plugins directory to run the model on *)

(** Callbacks act on a log of lines; arguments are lists of strings. *)
Definition ex_world : Type := list string.
Definition ex_args : Type := list string.

(** A callback that appends its tag and its arguments to the log. *)
Definition ex_log (tag : string) : @pyvalue ex_world ex_args :=
  Callable (λ args w, (Returned, w ++ [tag +:+ ":" +:+ String.concat "," args])).

(** A callback that raises [ValueError]. *)
Definition ex_raise : @pyvalue ex_world ex_args :=
  Callable (λ args w, (Raised (Exn "ValueError" "boom" ""), w)).

Definition ex_dir (r : @reg_prog ex_world ex_args) : @entry ex_world ex_args :=
  Directory {[ "plugin-main.py" := ExecModule (Some r) ]}.

(** A [register] that registers a callback on [on_save] and raises. *)
Definition ex_partial : @reg_prog ex_world ex_args :=
  RegHook "on_save" (ex_log "p") (RegRaise (Exn "ValueError" "oops" "")).

(** Plugin [a] registers a raising and a logging callback on hook [x];
    [b] logs under the host's name; [empty] has no entrypoint; [noreg]
    has no [register]; [broken] fails at top level; [partial] runs
    [ex_partial]; [readme] is a regular file. *)
Definition ex_disk : gmap string (@entry ex_world ex_args) :=
  {[ "a" := ex_dir (RegHook "x" ex_raise (RegHook "x" (ex_log "a") RegReturn));
     "b" := ex_dir (RegAppName (λ host, RegHook "x" (ex_log host) RegReturn));
     "empty" := Directory ∅;
     "noreg" := Directory {[ "plugin-main.py" := ExecModule None ]};
     "broken" := Directory {[ "plugin-main.py" :=
                   ExecRaises (Exn "SyntaxError" "invalid syntax" "") ]};
     "partial" := ex_dir ex_partial;
     "readme" := RegularFile ]}.

(** The manager after construction on that directory. *)
Definition ex_st : @state ex_world ex_args := PluginManager_init ex_disk [].

(** An archive [a.scpl] with a working plugin, and [bad.scpl] whose
    [register] raises. *)
Definition ex_scpl : @scpl_archive ex_world ex_args :=
  {| scpl_stem := "a";
     scpl_members :=
       [("plugin-main.py", ExecModule (Some (RegHook "x" (ex_log "new") RegReturn)));
        ("README.txt", ExecRaises (Exn "SyntaxError" "invalid syntax" ""))] |}.

Definition ex_scpl_bad : @scpl_archive ex_world ex_args :=
  {| scpl_stem := "bad";
     scpl_members := [("plugin-main.py", ExecModule (Some ex_partial))] |}.

(** An archive without the entrypoint. *)
Definition ex_scpl_none : @scpl_archive ex_world ex_args :=
  {| scpl_stem := "c"; scpl_members := [("main.py", ExecModule None)] |}.

(** A callback that ends the interpreter, as [sys.exit(0)] does. *)
Definition ex_exit : @pyvalue ex_world ex_args :=
  Callable (λ args w, (Raised (Exn "SystemExit" "0" ""), w)).

(** Plugin [a] registers a logging callback, [ex_exit] and another
    logging callback on hook [x]; plugin [b] a logging one. *)
Definition ex_disk_exit : gmap string (@entry ex_world ex_args) :=
  {[ "a" := ex_dir (RegHook "x" (ex_log "a1")
                      (RegHook "x" ex_exit (RegHook "x" (ex_log "a2") RegReturn)));
     "b" := ex_dir (RegHook "x" (ex_log "b") RegReturn) ]}.

Definition ex_st_exit : @state ex_world ex_args := PluginManager_init ex_disk_exit [].

(** A manager not yet constructed on a root where [plugin-main.py] of
    [a] calls [sys.exit(1)] at top level and [b] is a working plugin. *)
Definition ex_st_quit : @state ex_world ex_args :=
  {| plugins := []; heap := ∅; next_loc := 0;
     disk := {[ "a" := Directory {[ "plugin-main.py" := ExecRaises (Exn "SystemExit" "1" "") ]};
                "b" := ex_dir (RegHook "x" (ex_log "b") RegReturn) ]};
     stdout := []; world := []; calls := [] |}.

(** The exception of a load of [ex_partial]. *)
Definition ex_partial_error : exn :=
  RuntimeError ("Plugin register() failed: oops" +:+ nl
                  +:+ format_exc (Exn "ValueError" "oops" "")).

(** * Properties *)

Section Properties.
Context {W Args : Type}.
Implicit Types (st : @state W Args) (p : @Plugin W Args) (f : @pyvalue W Args).
Implicit Types (r : @reg_prog W Args) (args : Args) (cs : list (@call W Args)).
Implicit Types (fs : gmap string (@entry W Args)) (z : @scpl_archive W Args).

(** ** Hook dispatch *)

Lemma host_eq_refl st : host_eq st st.
Proof. by repeat split. Qed.

Lemma host_eq_trans st1 st2 st3 : host_eq st1 st2 → host_eq st2 st3 → host_eq st1 st3.
Proof. intros (?&?&?&?) (?&?&?&?). repeat split; congruence. Qed.

Lemma error_lines_app cs1 cs2 : error_lines (cs1 ++ cs2) = error_lines cs1 ++ error_lines cs2.
Proof. unfold error_lines. by rewrite omap_app. Qed.

(** One guarded call: it never raises, records the call and prints a
    line exactly when the callback raised. *)
Lemma guarded_invoke pn h f args st :
  ∃ c st',
    try_except (invoke pn h f args) (λ e, print (hook_error_line pn h e)) st
      = (Return tt, st') ∧
    host_eq st st' ∧ call_target c = (pn, h, f, args) ∧
    calls st' = calls st ++ [c] ∧ stdout st' = stdout st ++ error_lines [c].
Proof.
  unfold try_except, invoke.
  destruct (match f with
            | Callable g => g args (world st)
            | NotCallable t =>
                (Raised (TypeError (py_repr t +:+ " object is not callable")), world st)
            end) as [[|e] w] eqn:Hrun.
  - eexists {| call_plugin := pn; call_hook_name := h; call_func := f;
               call_args := args; call_outcome := Returned |}, _.
    split; [reflexivity|]. cbn. by rewrite app_nil_r.
  - eexists {| call_plugin := pn; call_hook_name := h; call_func := f;
               call_args := args; call_outcome := Raised e |}, _.
    split; [reflexivity|]. by cbn.
Qed.

(** The inner loop of [call_hook] over the callbacks of one plugin. *)
Lemma run_funcs pn h args (funcs : list (@pyvalue W Args)) st :
  ∃ cs st',
    for_each funcs (λ f, try_except (invoke pn h f args)
                           (λ e, print (hook_error_line pn h e))) st
      = (Return tt, st') ∧
    host_eq st st' ∧
    calls st' = calls st ++ cs ∧
    call_target <$> cs = (λ f, (pn, h, f, args)) <$> funcs ∧
    stdout st' = stdout st ++ error_lines cs.
Proof.
  revert st. induction funcs as [|f funcs IH]; intros st.
  - exists [], st. rewrite !app_nil_r. by repeat split.
  - destruct (guarded_invoke pn h f args st) as (c & st1 & Hrun & Hh1 & Hc & Hcalls & Hout).
    destruct (IH st1) as (cs & st2 & Hrest & Hh2 & Hcalls2 & Htargets & Hout2).
    exists (c :: cs), st2. split.
    { cbn [for_each]. unfold mbind, M_bind, bind. by rewrite Hrun. }
    split; [by eapply host_eq_trans|].
    split; [by rewrite Hcalls2, Hcalls, <-app_assoc|].
    split; [by rewrite !fmap_cons, Hc, Htargets|].
    rewrite Hout2, Hout, <-app_assoc. f_equal.
    by rewrite <-error_lines_app.
Qed.

(** The body of the outer loop of [call_hook], for the plugin at [l]. *)
Lemma call_plugin_at l h args st :
  ∃ cs st',
    (plugin ← gets (λ st, heap st !!! l);
     match hooks plugin !! h with
     | None | Some [] => ret tt
     | Some funcs =>
         for_each funcs (λ f, try_except (invoke (name plugin) h f args)
                                (λ e, print (hook_error_line (name plugin) h e)))
     end) st = (Return tt, st') ∧
    host_eq st st' ∧
    calls st' = calls st ++ cs ∧
    call_target <$> cs
      = (λ f, (name (heap st !!! l), h, f, args)) <$> funcs_of (heap st !!! l) h ∧
    stdout st' = stdout st ++ error_lines cs.
Proof.
  unfold mbind, M_bind, bind, gets, funcs_of.
  destruct (hooks (heap st !!! l) !! h) as [[|f funcs]|] eqn:Hget; cbn [default].
  - exists [], st. rewrite !app_nil_r. by repeat split.
  - apply run_funcs.
  - exists [], st. rewrite !app_nil_r. by repeat split.
Qed.

Lemma call_plugins (ls : list loc) h args st :
  ∃ cs st',
    for_each ls (λ l,
      plugin ← gets (λ st, heap st !!! l);
      match hooks plugin !! h with
      | None | Some [] => ret tt
      | Some funcs =>
          for_each funcs (λ f, try_except (invoke (name plugin) h f args)
                                 (λ e, print (hook_error_line (name plugin) h e)))
      end) st = (Return tt, st') ∧
    host_eq st st' ∧
    calls st' = calls st ++ cs ∧
    call_target <$> cs
      = (l ← ls; (λ f, (name (heap st !!! l), h, f, args)) <$> funcs_of (heap st !!! l) h) ∧
    stdout st' = stdout st ++ error_lines cs.
Proof.
  revert st. induction ls as [|l ls IH]; intros st.
  - exists [], st. rewrite !app_nil_r. by repeat split.
  - destruct (call_plugin_at l h args st) as (cs1 & st1 & Hrun & Hh1 & Hc1 & Ht1 & Ho1).
    destruct (IH st1) as (cs2 & st2 & Hrest & Hh2 & Hc2 & Ht2 & Ho2).
    exists (cs1 ++ cs2), st2. split.
    { cbn [for_each]. unfold mbind at 1, M_bind at 1, bind at 1.
      by rewrite Hrun. }
    split; [by eapply host_eq_trans|].
    split; [by rewrite Hc2, Hc1, <-app_assoc|].
    split.
    { rewrite fmap_app, Ht1, Ht2. destruct Hh1 as (_ & -> & _). done. }
    by rewrite Ho2, Ho1, error_lines_app, <-app_assoc.
Qed.

(** [call_hook] in full: it returns, it calls every callback of the
    table for the hook once, in order, and prints the error lines. *)
Lemma call_hook_spec h args st :
  ∃ cs st',
    call_hook h args st = (Return tt, st') ∧
    host_eq st st' ∧
    calls st' = calls st ++ cs ∧
    call_target <$> cs = dispatch_targets st h args ∧
    stdout st' = stdout st ++ error_lines cs.
Proof. apply call_plugins. Qed.

(** ** Dispatch with the class of the exception *)

Lemma invoke_eq pn h f args st :
  invoke pn h f args st
    = (to_result (apply_value f args (world st)).1,
       set_world_calls (apply_value f args (world st)).2
         {| call_plugin := pn; call_hook_name := h; call_func := f; call_args := args;
            call_outcome := (apply_value f args (world st)).1 |} st).
Proof.
  unfold invoke, apply_value. destruct f as [g|t]; [|done].
  by destruct (g args (world st)) as [[|e] w].
Qed.

Lemma dispatched_id st : dispatched st [] (world st) [] = st.
Proof. destruct st. unfold dispatched. cbn. by rewrite !app_nil_r. Qed.

Lemma dispatched_twice st cs1 w1 l1 cs2 w2 l2 :
  dispatched (dispatched st cs1 w1 l1) cs2 w2 l2 = dispatched st (cs1 ++ cs2) w2 (l1 ++ l2).
Proof. unfold dispatched. cbn. by rewrite !app_assoc. Qed.

Lemma set_world_calls_dispatched w (c : @call W Args) st :
  set_world_calls w c st = dispatched st [c] w [].
Proof. unfold set_world_calls, dispatched. by rewrite app_nil_r. Qed.

Lemma caught_lines_app C cs1 cs2 :
  caught_lines C (cs1 ++ cs2) = caught_lines C cs1 ++ caught_lines C cs2.
Proof. unfold caught_lines. by rewrite omap_app. Qed.

Lemma run_callbacks_app C (ts1 ts2 : list (string * string * @pyvalue W Args * Args)) w :
  run_callbacks C (ts1 ++ ts2) w =
    match (run_callbacks C ts1 w).2 with
    | Some e => run_callbacks C ts1 w
    | None =>
        ((run_callbacks C ts1 w).1.1 ++ (run_callbacks C ts2 (run_callbacks C ts1 w).1.2).1.1,
         (run_callbacks C ts2 (run_callbacks C ts1 w).1.2).1.2,
         (run_callbacks C ts2 (run_callbacks C ts1 w).1.2).2)
    end.
Proof.
  revert w. induction ts1 as [|[[[pn h] f] args] ts1 IH]; intros w.
  - cbn. by destruct (run_callbacks C ts2 w) as [[cs w'] esc].
  - cbn [app run_callbacks]. cbn zeta.
    destruct (apply_value f args w) as [[|e] w1]; cbn [fst snd].
    + rewrite IH. by destruct (run_callbacks C ts1 w1) as [[cs1 w2] [e1|]].
    + destruct (C e); [|done].
      rewrite IH. by destruct (run_callbacks C ts1 w1) as [[cs1 w2] [e1|]].
Qed.

(** The inner loop of a dispatch over the callbacks of one plugin, the
    handler catching the class [C]. *)
Lemma run_funcs_in C pn h args (funcs : list (@pyvalue W Args)) st :
  for_each funcs (λ f, try_except_in C (invoke pn h f args)
                         (λ e, print (hook_error_line pn h e))) st
    = (from_option Raise (Return tt)
         (run_callbacks C ((λ f, (pn, h, f, args)) <$> funcs) (world st)).2,
       dispatched st
         (run_callbacks C ((λ f, (pn, h, f, args)) <$> funcs) (world st)).1.1
         (run_callbacks C ((λ f, (pn, h, f, args)) <$> funcs) (world st)).1.2
         (caught_lines C
            (run_callbacks C ((λ f, (pn, h, f, args)) <$> funcs) (world st)).1.1)).
Proof.
  revert st. induction funcs as [|f funcs IH]; intros st.
  - cbn. by rewrite dispatched_id.
  - cbn [for_each fmap list_fmap run_callbacks]. cbn zeta.
    unfold mbind at 1, M_bind at 1, bind at 1, try_except_in at 1.
    rewrite invoke_eq, set_world_calls_dispatched.
    destruct (apply_value f args (world st)) as [[|e] w1]; cbn [fst snd to_result].
    + rewrite IH. cbn [world dispatched].
      destruct (run_callbacks C ((λ f0, (pn, h, f0, args)) <$> funcs) w1) as [[cs w2] esc].
      cbn [fst snd]. rewrite dispatched_twice. done.
    + destruct (C e) eqn:HC; [|by cbn; rewrite HC].
      unfold print, modify.
      rewrite IH. cbn [world dispatched set_stdout].
      destruct (run_callbacks C ((λ f0, (pn, h, f0, args)) <$> funcs) w1) as [[cs w2] esc].
      cbn [fst snd]. f_equal. unfold dispatched, caught_lines. cbn. rewrite HC. cbn.
      by rewrite !app_nil_r, <-!app_assoc.
Qed.

(** The outer loop of a dispatch over the objects of the table. *)
Lemma call_plugins_in C (ls : list loc) h args st :
  for_each ls (λ l,
    plugin ← gets (λ st, heap st !!! l);
    match hooks plugin !! h with
    | None | Some [] => ret tt
    | Some funcs =>
        for_each funcs (λ f, try_except_in C (invoke (name plugin) h f args)
                               (λ e, print (hook_error_line (name plugin) h e)))
    end) st
    = (from_option Raise (Return tt)
         (run_callbacks C
            (l ← ls; (λ f, (name (heap st !!! l), h, f, args)) <$> funcs_of (heap st !!! l) h)
            (world st)).2,
       dispatched st
         (run_callbacks C
            (l ← ls; (λ f, (name (heap st !!! l), h, f, args)) <$> funcs_of (heap st !!! l) h)
            (world st)).1.1
         (run_callbacks C
            (l ← ls; (λ f, (name (heap st !!! l), h, f, args)) <$> funcs_of (heap st !!! l) h)
            (world st)).1.2
         (caught_lines C
            (run_callbacks C
               (l ← ls; (λ f, (name (heap st !!! l), h, f, args))
                          <$> funcs_of (heap st !!! l) h)
               (world st)).1.1)).
Proof.
  revert st. induction ls as [|l ls IH]; intros st.
  - cbn. by rewrite dispatched_id.
  - cbn [for_each]. rewrite bind_cons, run_callbacks_app.
    unfold mbind at 1, M_bind at 1, bind at 1.
    assert (Hbody :
      (plugin ← gets (λ st, heap st !!! l);
       match hooks plugin !! h with
       | None | Some [] => ret tt
       | Some funcs =>
           for_each funcs (λ f, try_except_in C (invoke (name plugin) h f args)
                                  (λ e, print (hook_error_line (name plugin) h e)))
       end) st
      = for_each (funcs_of (heap st !!! l) h)
          (λ f, try_except_in C (invoke (name (heap st !!! l)) h f args)
                  (λ e, print (hook_error_line (name (heap st !!! l)) h e))) st).
    { unfold mbind, M_bind, bind, gets, funcs_of.
      by destruct (hooks (heap st !!! l) !! h) as [[|f funcs]|]. }
    rewrite Hbody, run_funcs_in.
    destruct (run_callbacks C
                ((λ f, (name (heap st !!! l), h, f, args)) <$> funcs_of (heap st !!! l) h)
                (world st)) as [[cs1 w1] [e1|]]; cbn [fst snd from_option]; [done|].
    rewrite IH. cbn [heap world dispatched].
    rewrite dispatched_twice, caught_lines_app. done.
Qed.

(** [Strict.call_hook] in closed form. *)
Lemma strict_call_hook_eq h args st :
  Strict.call_hook h args st
    = (from_option Raise (Return tt)
         (run_callbacks is_Exception (dispatch_targets st h args) (world st)).2,
       dispatched st
         (run_callbacks is_Exception (dispatch_targets st h args) (world st)).1.1
         (run_callbacks is_Exception (dispatch_targets st h args) (world st)).1.2
         (caught_lines is_Exception
            (run_callbacks is_Exception (dispatch_targets st h args) (world st)).1.1)).
Proof. apply call_plugins_in. Qed.

(** [call_hook], whose handler catches whatever is raised, in closed
    form. *)
Lemma call_hook_eq h args st :
  call_hook h args st
    = (from_option Raise (Return tt)
         (run_callbacks (λ _, true) (dispatch_targets st h args) (world st)).2,
       dispatched st
         (run_callbacks (λ _, true) (dispatch_targets st h args) (world st)).1.1
         (run_callbacks (λ _, true) (dispatch_targets st h args) (world st)).1.2
         (caught_lines (λ _, true)
            (run_callbacks (λ _, true) (dispatch_targets st h args) (world st)).1.1)).
Proof. apply (call_plugins_in (λ _, true)). Qed.

(** The calls of a run are a prefix of the callbacks given. *)
Lemma run_callbacks_prefix C (ts : list (string * string * @pyvalue W Args * Args)) w :
  call_target <$> (run_callbacks C ts w).1.1
    = take (length (run_callbacks C ts w).1.1) ts.
Proof.
  revert w. induction ts as [|[[[pn h] f] args] ts IH]; intros w; [done|].
  cbn [run_callbacks]. cbn zeta.
  destruct (apply_value f args w) as [[|e] w1]; cbn [fst snd].
  - cbn. f_equal. apply IH.
  - destruct (C e); cbn; [f_equal; apply IH|done].
Qed.

Lemma run_callbacks_None C (ts : list (string * string * @pyvalue W Args * Args)) w :
  (run_callbacks C ts w).2 = None → call_target <$> (run_callbacks C ts w).1.1 = ts.
Proof.
  revert w. induction ts as [|[[[pn h] f] args] ts IH]; intros w; [done|].
  cbn [run_callbacks]. cbn zeta.
  destruct (apply_value f args w) as [[|e] w1]; cbn [fst snd].
  - intros Hn. cbn. f_equal. by apply IH.
  - destruct (C e); cbn; [|done]. intros Hn. f_equal. by apply IH.
Qed.

(** A run ends early on an exception outside the class only, raised by
    the last call made. *)
Lemma run_callbacks_Some C (ts : list (string * string * @pyvalue W Args * Args)) w e :
  (run_callbacks C ts w).2 = Some e →
  C e = false ∧
  ∃ c, last (run_callbacks C ts w).1.1 = Some c ∧ call_outcome c = Raised e.
Proof.
  revert w. induction ts as [|[[[pn h] f] args] ts IH]; intros w; [done|].
  cbn [run_callbacks]. cbn zeta.
  destruct (apply_value f args w) as [[|e1] w1]; cbn [fst snd].
  - intros [HC (c & Hlast & Hc)]%IH. split; [done|]. exists c. split; [|done].
    rewrite last_cons, Hlast. done.
  - destruct (C e1) eqn:HC1; cbn [fst snd].
    + intros [HC (c & Hlast & Hc)]%IH. split; [done|]. exists c. split; [|done].
      rewrite last_cons, Hlast. done.
    + intros [= <-]. split; [done|]. eexists. split; [reflexivity|done].
Qed.

Lemma run_callbacks_caught C (ts : list (string * string * @pyvalue W Args * Args)) w :
  (∀ c e, c ∈ (run_callbacks C ts w).1.1 → call_outcome c = Raised e → C e = true) →
  (run_callbacks C ts w).2 = None.
Proof.
  intros Hall. destruct (run_callbacks C ts w).2 as [e|] eqn:Hesc; [|done].
  apply run_callbacks_Some in Hesc as [HC (c & Hlast & Hc)].
  apply last_Some in Hlast as (cs' & Hcs).
  rewrite (Hall c e) in HC; [done| |done].
  rewrite Hcs. apply elem_of_app. right. apply list_elem_of_singleton. done.
Qed.

(** After a call that returned, or raised inside the class, the next
    callback is called. *)
Lemma run_callbacks_next C (ts : list (string * string * @pyvalue W Args * Args)) w i c :
  (run_callbacks C ts w).1.1 !! i = Some c →
  (∀ e, call_outcome c = Raised e → C e = true) →
  S i < length ts →
  S i < length (run_callbacks C ts w).1.1.
Proof.
  revert w i. induction ts as [|[[[pn h] f] args] ts IH]; intros w i; [done|].
  cbn [run_callbacks]. cbn zeta.
  assert (Hhead : ∀ w1, 0 < length ts → 0 < length (run_callbacks C ts w1).1.1).
  { intros w1. destruct ts as [|[[[pn2 h2] f2] args2] ts]; [cbn; lia|]. intros _.
    cbn [run_callbacks]. cbn zeta.
    destruct (apply_value f2 args2 w1) as [[|e] w2]; cbn; [lia|].
    destruct (C e); cbn; lia. }
  assert (Hcont : ∀ w1 c0,
    (c0 :: (run_callbacks C ts w1).1.1) !! i = Some c →
    (∀ e, call_outcome c = Raised e → C e = true) →
    S i < length ((pn, h, f, args) :: ts) →
    S i < length (c0 :: (run_callbacks C ts w1).1.1)).
  { intros w1 c0 Hi Hc Hlen. cbn in Hlen |- *. destruct i as [|i].
    - specialize (Hhead w1). lia.
    - cbn in Hi. specialize (IH w1 i Hi Hc). lia. }
  destruct (apply_value f args w) as [[|e] w1] eqn:Happ; cbn [fst snd].
  - apply Hcont.
  - destruct (C e) eqn:HC; cbn [fst snd]; [apply Hcont|].
    intros Hi Hc. destruct i as [|i]; [|done].
    injection Hi as <-. cbn in Hc. rewrite (Hc e) in HC; done.
Qed.

(** A run that ends with no exception outside the class is the run of
    a handler that catches whatever is raised. *)
Lemma run_callbacks_agree C (ts : list (string * string * @pyvalue W Args * Args)) w :
  (run_callbacks C ts w).2 = None →
  run_callbacks (λ _, true) ts w = run_callbacks C ts w ∧
  caught_lines (λ _, true) (run_callbacks C ts w).1.1
    = caught_lines C (run_callbacks C ts w).1.1.
Proof.
  revert w. induction ts as [|[[[pn h] f] args] ts IH]; intros w; [done|].
  cbn [run_callbacks]. cbn zeta.
  destruct (apply_value f args w) as [[|e] w1]; cbn [fst snd].
  - intros [Hrun Hlines]%IH. rewrite Hrun. split; [done|].
    unfold caught_lines in *. cbn. done.
  - destruct (C e) eqn:HC; cbn [fst snd]; [|done].
    intros [Hrun Hlines]%IH. rewrite Hrun. split; [done|].
    unfold caught_lines in *. cbn. rewrite HC. cbn. by rewrite Hlines.
Qed.

(** A dispatch of the manager with the class test that returns is the
    dispatch of [call_hook]. *)
Lemma strict_call_hook_Return h args st st' :
  Strict.call_hook h args st = (Return tt, st') → call_hook h args st = (Return tt, st').
Proof.
  rewrite strict_call_hook_eq, call_hook_eq. intros Hrun.
  destruct (run_callbacks_agree is_Exception (dispatch_targets st h args) (world st))
    as [Hagree Hlines].
  { by destruct (run_callbacks is_Exception (dispatch_targets st h args) (world st)).2. }
  by rewrite Hagree, Hlines.
Qed.

Lemma dispatch_targets_hook st h args t :
  t ∈ dispatch_targets st h args → t.1.1.2 = h ∧ t.2 = args.
Proof.
  unfold dispatch_targets. intros (l & Hin & _)%list_elem_of_bind.
  apply list_elem_of_fmap in Hin as (g & -> & _). done.
Qed.


(** ** The capability object *)

Lemma add_hook_insert n f (h : gmap string (list (@pyvalue W Args))) :
  add_hook n f h = <[n := default [] (h !! n) ++ [f]]> h.
Proof.
  unfold add_hook. destruct (h !! n) as [funcs|] eqn:Hn; cbn [default].
  - apply map_eq. intros k. destruct (decide (k = n)) as [->|Hne].
    + by rewrite lookup_alter_eq, lookup_insert_eq, Hn.
    + by rewrite lookup_alter_ne, lookup_insert_ne.
  - by rewrite alter_insert_eq.
Qed.

(** C9: [register_hook] returns for every name and every value, callable
    or not; afterwards the value is last in the owning plugin's list for
    the name; the plugin's other lists and fields, every other object,
    the plugin table and the rest of the state are as before.
    [app_name] is the string Scriptor. *)
Theorem register_hook_frame (self : PluginAPI) n f st :
  ∃ st',
    register_hook self n f st = (Return tt, st') ∧
    hooks (heap st' !!! _plugin self) !! n
      = Some (funcs_of (heap st !!! _plugin self) n ++ [f]) ∧
    (∀ n', n' ≠ n →
       hooks (heap st' !!! _plugin self) !! n' = hooks (heap st !!! _plugin self) !! n') ∧
    name (heap st' !!! _plugin self) = name (heap st !!! _plugin self) ∧
    path (heap st' !!! _plugin self) = path (heap st !!! _plugin self) ∧
    module (heap st' !!! _plugin self) = module (heap st !!! _plugin self) ∧
    (∀ l, l ≠ _plugin self → heap st' !! l = heap st !! l) ∧
    plugins st' = plugins st ∧ next_loc st' = next_loc st ∧
    disk st' = disk st ∧ stdout st' = stdout st ∧
    world st' = world st ∧ calls st' = calls st ∧
    app_name self = "Scriptor".
Proof.
  eexists. split; [reflexivity|]. cbn.
  rewrite lookup_total_insert_eq. cbn. rewrite add_hook_insert.
  split; [by rewrite lookup_insert_eq|].
  split; [by intros n' Hn'; rewrite lookup_insert_ne|].
  do 3 (split; [done|]).
  split; [by intros l Hl; rewrite lookup_insert_ne|].
  by repeat split.
Qed.

(** ** Loading a plugin *)

Lemma set_heap_twice l p p' st :
  set_heap l p' (set_heap l p st) = set_heap l p' st.
Proof. unfold set_heap. cbn. by rewrite insert_insert_eq. Qed.

Lemma set_heap_id l p st : heap st !! l = Some p → set_heap l p st = st.
Proof. intros Hl. destruct st. unfold set_heap. cbn in *. by rewrite insert_id. Qed.

Lemma set_hooks_id p : set_hooks (hooks p) p = p.
Proof. by destruct p. Qed.

(** A run of [register] performs its calls of [register_hook] on the
    object of the capability object and ends as the script says. *)
Lemma run_register_eq r (api : PluginAPI) p st :
  heap st !! _plugin api = Some p →
  run_register r api st
    = (to_result (reg_outcome r),
       set_heap (_plugin api) (set_hooks (hooks_after (registered r) (hooks p)) p) st).
Proof.
  revert p st. induction r as [|e|n f k IH|k IH]; intros p st Hp; cbn.
  - unfold ret. by rewrite set_hooks_id, set_heap_id.
  - unfold raise. by rewrite set_hooks_id, set_heap_id.
  - unfold mbind, M_bind, bind, register_hook, modify.
    rewrite (lookup_total_correct _ _ _ Hp).
    erewrite IH; [|by cbn; rewrite lookup_insert_eq].
    by rewrite set_heap_twice.
  - by apply IH.
Qed.

(** [load_plugin_from_dir] in closed form. *)
Lemma load_plugin_from_dir_eq path st :
  let l := next_loc st in
  let st0 := set_next_loc (S l) (set_heap l (Plugin_init path path) st) in
  load_plugin_from_dir path st =
    match dir_file (disk st) path "plugin-main.py" with
    | Some (ExecModule (Some r)) =>
        match reg_outcome r with
        | Returned =>
            (Return tt,
             set_stdout (λ out, out ++ ["Loaded plugin: " +:+ path])
               (set_plugins (dict_set path l)
                  (set_heap l
                     (set_module {| mod_name := "scriptor_plugin_" +:+ path;
                                    mod_register := Some r |}
                        (registered_plugin path r)) st0)))
        | Raised e =>
            (Raise (RuntimeError
                      ("Plugin register() failed: " +:+ exn_str e +:+ nl +:+ format_exc e)),
             set_heap l (registered_plugin path r) st0)
        end
    | Some src => (from_option Raise (Return tt) (entrypoint_error src), st0)
    | None =>
        (Raise (FileNotFoundError ("plugin-main.py missing in " +:+ str_path path)), st0)
    end.
Proof.
  intros l st0. unfold load_plugin_from_dir.
  unfold mbind at 1, M_bind at 1, bind at 1. cbn [new_Plugin].
  fold l. fold st0.
  unfold mbind at 1, M_bind at 1, bind at 1. cbn [gets].
  replace (disk st0) with (disk st) by done.
  destruct (dir_file (disk st) path "plugin-main.py") as [[e|[r|]]|]; [| | |done].
  - done.
  - unfold mbind at 1, M_bind at 1, bind at 1. cbn [try_except exec_module ret mod_register].
    unfold mbind at 1, M_bind at 1, bind at 1. unfold try_except at 1.
    rewrite (run_register_eq r _ (Plugin_init path path))
      by (subst st0; cbn; by rewrite lookup_insert_eq).
    cbn [_plugin hooks Plugin_init].
    fold (registered_plugin path r).
    destruct (reg_outcome r) as [|e]; cbn [to_result]; [|done].
    unfold mbind, M_bind, bind, modify, print. cbn [heap set_heap].
    rewrite lookup_total_insert_eq. by rewrite set_heap_twice.
  - done.
Qed.

(** What a load does to the state, by the exception it raises if any. *)
Lemma load_plugin_from_dir_cases path st :
  ∃ res st',
    load_plugin_from_dir path st = (res, st') ∧
    disk st' = disk st ∧ world st' = world st ∧ calls st' = calls st ∧
    next_loc st' = S (next_loc st) ∧
    (∀ l, l ≠ next_loc st → heap st' !! l = heap st !! l) ∧
    match load_error (disk st) path with
    | Some e =>
        res = Raise e ∧ plugins st' = plugins st ∧ stdout st' = stdout st
    | None =>
        res = Return tt ∧
        plugins st' = dict_set path (next_loc st) (plugins st) ∧
        stdout st' = stdout st ++ ["Loaded plugin: " +:+ path] ∧
        ∃ r, dir_file (disk st) path "plugin-main.py" = Some (ExecModule (Some r)) ∧
             reg_outcome r = Returned ∧
             name (heap st' !!! next_loc st) = path ∧
             hooks (heap st' !!! next_loc st) = hooks_after (registered r) ∅
    end.
Proof.
  eexists _, _. split; [apply surjective_pairing|].
  rewrite load_plugin_from_dir_eq. unfold load_error.
  destruct (dir_file (disk st) path "plugin-main.py") as [[e|[r|]]|]; cbn.
  - repeat split. intros l Hl. by rewrite lookup_insert_ne.
  - destruct (reg_outcome r) as [|e] eqn:Hr; cbn.
    + repeat split.
      * intros l Hl. by rewrite !lookup_insert_ne.
      * exists r. by rewrite lookup_total_insert_eq.
    + repeat split. intros l Hl. by rewrite !lookup_insert_ne.
  - repeat split. intros l Hl. by rewrite lookup_insert_ne.
  - repeat split. intros l Hl. by rewrite lookup_insert_ne.
Qed.

(** C3: when the entrypoint file is absent, or executing it raises, or
    the module has no [register], or [register] raises, then
    [load_plugin_from_dir] raises (a [FileNotFoundError] in the first
    case, a [RuntimeError] in the others), the plugin table is the one
    before the call and so is the disk. *)
Theorem failed_load_adds_no_record path st :
  dir_file (disk st) path "plugin-main.py" = None ∨
  (∃ e, dir_file (disk st) path "plugin-main.py" = Some (ExecRaises e)) ∨
  dir_file (disk st) path "plugin-main.py" = Some (ExecModule None) ∨
  (∃ r e, dir_file (disk st) path "plugin-main.py" = Some (ExecModule (Some r)) ∧
          reg_outcome r = Raised e) →
  ∃ err st',
    load_plugin_from_dir path st = (Raise err, st') ∧
    plugins st' = plugins st ∧
    disk st' = disk st ∧
    exn_class err =
      match dir_file (disk st) path "plugin-main.py" with
      | Some _ => "RuntimeError"
      | None => "FileNotFoundError"
      end.
Proof.
  intros Hcause.
  destruct (load_plugin_from_dir_cases path st)
    as (res & st' & Hrun & Hdisk & _ & _ & _ & _ & Hres).
  unfold load_error in Hres.
  destruct Hcause as [Hf|[[e Hf]|[Hf|(r & e & Hf & Hr)]]];
    rewrite Hf in Hres |- *; cbn in Hres; rewrite ?Hr in Hres;
    destruct Hres as (-> & Htable & _); by eexists _, _.
Qed.

(** ** Dictionaries *)

Lemma dict_get_Some {V} k (v : V) d : dict_get k d = Some v → (k, v) ∈ d.
Proof.
  induction d as [|[k' v'] d IH]; cbn; [done|].
  destruct (decide (k' = k)) as [Hk|Hk].
  - intros [= ->]. subst. apply elem_of_cons. by left.
  - intros Hget. apply elem_of_cons. right. by apply IH.
Qed.

Lemma dict_get_None {V} k (d : list (string * V)) : dict_get k d = None ↔ k ∉ d.*1.
Proof.
  induction d as [|[k' v'] d IH]; cbn.
  - split; [intros _; apply not_elem_of_nil|done].
  - rewrite not_elem_of_cons. destruct (decide (k' = k)) as [Hk|Hk].
    + split; [done|]. intros [Hne _]. by destruct Hne.
    + rewrite IH. split; [by split|]. by intros [_ ?].
Qed.

Lemma dict_get_elem_of {V} k (v : V) d : NoDup d.*1 → (k, v) ∈ d → dict_get k d = Some v.
Proof.
  induction d as [|[k' v'] d IH]; cbn.
  - by intros _ ?%not_elem_of_nil.
  - rewrite NoDup_cons. intros [Hk' Hd] [Heq|Hin]%elem_of_cons.
    + injection Heq as -> ->. by rewrite decide_True.
    + destruct (decide (k' = k)) as [Hk|Hk]; [|by apply IH].
      subst. destruct Hk'. apply list_elem_of_fmap. by exists (k, v).
Qed.

Lemma dict_set_keys {V} k (v : V) d :
  (dict_set k v d).*1 = if decide (k ∈ d.*1) then d.*1 else d.*1 ++ [k].
Proof.
  induction d as [|[k' v'] d IH]; cbn.
  - by rewrite decide_False by apply not_elem_of_nil.
  - destruct (decide (k' = k)) as [Hk|Hk]; cbn.
    + subst. by rewrite decide_True by (apply elem_of_cons; by left).
    + rewrite IH. destruct (decide (k ∈ d.*1)) as [Hin|Hin].
      * by rewrite decide_True by (apply elem_of_cons; by right).
      * rewrite decide_False; [done|].
        apply not_elem_of_cons. by split.
Qed.

Lemma dict_set_NoDup {V} k (v : V) d : NoDup d.*1 → NoDup (dict_set k v d).*1.
Proof.
  intros Hd. rewrite dict_set_keys. case_decide as Hk; [done|].
  apply NoDup_app. split; [done|]. split; [|apply NoDup_singleton].
  intros k' Hk' ->%list_elem_of_singleton. done.
Qed.

Lemma dict_set_elem_of_inv {V} k (v : V) d k' v' :
  (k', v') ∈ dict_set k v d → (k' = k ∧ v' = v) ∨ (k', v') ∈ d.
Proof.
  induction d as [|[k1 v1] d IH]; cbn.
  - intros [= -> ->]%list_elem_of_singleton. by left.
  - destruct (decide (k1 = k)) as [Hk|Hk].
    + intros [[= -> ->]|Hin]%elem_of_cons; [by left|].
      right. apply elem_of_cons. by right.
    + intros [Heq|Hin]%elem_of_cons.
      * right. apply elem_of_cons. by left.
      * destruct (IH Hin) as [?|?]; [by left|].
        right. apply elem_of_cons. by right.
Qed.

Lemma dict_set_elem_of_ne {V} k (v : V) d k' v' :
  k' ≠ k → (k', v') ∈ d → (k', v') ∈ dict_set k v d.
Proof.
  intros Hne. induction d as [|[k1 v1] d IH]; cbn.
  - by intros ?%not_elem_of_nil.
  - intros [[= <- <-]|Hin]%elem_of_cons.
    + rewrite decide_False by done. apply elem_of_cons. by left.
    + destruct (decide (k1 = k)); apply elem_of_cons; right; [done|by apply IH].
Qed.

Lemma dict_set_elem_of_eq {V} k (v : V) d : (k, v) ∈ dict_set k v d.
Proof.
  induction d as [|[k1 v1] d IH]; cbn.
  - by apply list_elem_of_singleton.
  - destruct (decide (k1 = k)); apply elem_of_cons; [by left|by right].
Qed.

Lemma dict_pop_keys {V} k (d : list (string * V)) k' :
  k' ∈ (dict_pop k d).*1 ↔ k' ≠ k ∧ k' ∈ d.*1.
Proof.
  induction d as [|[k1 v1] d IH]; cbn.
  - split; [by intros ?%not_elem_of_nil|by intros [_ ?%not_elem_of_nil]].
  - destruct (decide (k1 = k)) as [Hk|Hk]; cbn; rewrite ?elem_of_cons, IH.
    + subst. split; [intros [? ?]; split; [done|by right]|].
      intros [Hne [->|?]]; done.
    + split.
      * intros [->|[? ?]]; [split; [done|by left]|split; [done|by right]].
      * intros [Hne [->|?]]; [by left|by right].
Qed.

Lemma dict_pop_elem_of {V} k (d : list (string * V)) k' v' :
  (k', v') ∈ dict_pop k d ↔ k' ≠ k ∧ (k', v') ∈ d.
Proof.
  induction d as [|[k1 v1] d IH]; cbn.
  - split; [by intros ?%not_elem_of_nil|by intros [_ ?%not_elem_of_nil]].
  - destruct (decide (k1 = k)) as [Hk|Hk]; cbn; rewrite ?elem_of_cons, IH.
    + subst. split; [intros [? ?]; split; [done|by right]|].
      intros [Hne [[= -> ->]|?]]; done.
    + split.
      * intros [[= -> ->]|[? ?]]; [split; [done|by left]|split; [done|by right]].
      * intros [Hne [[= -> ->]|?]]; [by left|by right].
Qed.

(** ** The plugin table as an invariant *)

Lemma table_wf_elem_of st n l :
  table_wf st → (n, l) ∈ plugins st → l < next_loc st ∧ name (heap st !!! l) = n.
Proof. intros [_ Hall] Hin. by apply (proj1 (Forall_forall _ _) Hall (n, l)). Qed.

Lemma lookup_total_frame (h h' : gmap loc (@Plugin W Args)) l :
  h' !! l = h !! l → h' !!! l = h !!! l.
Proof. intros Heq. by rewrite !lookup_total_alt, Heq. Qed.

Lemma load_plugin_from_dir_wf path st res st' :
  table_wf st → load_plugin_from_dir path st = (res, st') → table_wf st'.
Proof.
  intros Hwf Hrun.
  destruct (load_plugin_from_dir_cases path st)
    as (res' & st'' & Hrun' & _ & _ & _ & Hnext & Hheap & Hres).
  rewrite Hrun in Hrun'. injection Hrun' as <- <-.
  assert (Hold : ∀ n l, (n, l) ∈ plugins st →
            l < next_loc st' ∧ name (heap st' !!! l) = n).
  { intros n l Hin. destruct (table_wf_elem_of st n l Hwf Hin) as [Hl Hn].
    rewrite Hnext. split; [lia|]. rewrite (lookup_total_frame (heap st)); [done|].
    apply Hheap. lia. }
  destruct (load_error (disk st) path) as [e|].
  - destruct Hres as (_ & Htable & _). split; rewrite Htable; [apply Hwf|].
    apply Forall_forall. intros [n l] Hin. by apply Hold.
  - destruct Hres as (_ & Htable & _ & r & _ & _ & Hname & _).
    split; rewrite Htable; [apply dict_set_NoDup, Hwf|].
    apply Forall_forall. intros [n l] Hin.
    destruct (dict_set_elem_of_inv _ _ _ _ _ Hin) as [[-> ->]|Hin'].
    + cbn. rewrite Hnext. split; [lia|done].
    + by apply Hold.
Qed.

(** ** The callbacks of one plugin within a dispatch *)

Lemma filter_fmap {A B} (g : A → B) (P : B → Prop) `{!∀ x, Decision (P x)} (l : list A) :
  filter P (g <$> l) = g <$> filter (P ∘ g) l.
Proof.
  induction l as [|x l IH]; [done|].
  rewrite fmap_cons, !filter_cons. cbn [compose].
  destruct (decide (P (g x))); by rewrite IH.
Qed.

Lemma filter_all {A} (P : A → Prop) `{!∀ x, Decision (P x)} (l : list A) :
  Forall P l → filter P l = l.
Proof.
  induction 1 as [|x l Hx Hl IH]; [done|].
  by rewrite filter_cons_True, IH.
Qed.

Lemma filter_none {A} (P : A → Prop) `{!∀ x, Decision (P x)} (l : list A) :
  Forall (λ x, ¬ P x) l → filter P l = [].
Proof.
  induction 1 as [|x l Hx Hl IH]; [done|].
  by rewrite filter_cons_False.
Qed.

Section owned.
Context (heap0 : gmap loc (@Plugin W Args)) (h : string) (args : Args) (n : string).

Let block (l : loc) : list (string * string * @pyvalue W Args * Args) :=
  (λ f, (name (heap0 !!! l), h, f, args)) <$> funcs_of (heap0 !!! l) h.

Lemma block_owner l : Forall (λ t, t.1.1.1 = name (heap0 !!! l)) (block l).
Proof. apply Forall_fmap, Forall_true. done. Qed.

Lemma owned_absent (d : list (string * loc)) :
  Forall (λ nl, name (heap0 !!! nl.2) = nl.1) d → n ∉ d.*1 →
  filter (λ t, t.1.1.1 = n) (d.*2 ≫= block) = [].
Proof.
  induction d as [|[n' l'] d IH]; [done|].
  rewrite Forall_cons, fmap_cons, not_elem_of_cons. cbn.
  intros [Hn' Hd] [Hne Hnin].
  rewrite filter_app, IH by done. rewrite app_nil_r.
  apply filter_none. eapply Forall_impl; [apply block_owner|].
  cbn. intros t ->. congruence.
Qed.

Lemma owned_present (d : list (string * loc)) l :
  NoDup d.*1 → Forall (λ nl, name (heap0 !!! nl.2) = nl.1) d → (n, l) ∈ d →
  filter (λ t, t.1.1.1 = n) (d.*2 ≫= block) = block l.
Proof.
  induction d as [|[n' l'] d IH]; [by intros _ _ ?%not_elem_of_nil|].
  rewrite fmap_cons, NoDup_cons, Forall_cons. cbn.
  intros [Hnin Hnd] [Hn' Hd] Hin. rewrite filter_app.
  apply elem_of_cons in Hin as [[= <- <-]|Hin].
  - rewrite owned_absent, app_nil_r by done.
    apply filter_all. cbn in Hn'. rewrite <-Hn'. apply block_owner.
  - rewrite IH by done.
    rewrite filter_none; [done|].
    eapply Forall_impl; [apply block_owner|]. cbn. intros t Ht Heq.
    apply Hnin. cbn in Hn'. rewrite <-Hn', <-Ht, Heq.
    apply list_elem_of_fmap. by exists (n, l).
Qed.
End owned.

Lemma dispatch_targets_owned st h args n l :
  table_wf st → (n, l) ∈ plugins st →
  filter (λ t, t.1.1.1 = n) (dispatch_targets st h args)
    = (λ f, (n, h, f, args)) <$> funcs_of (heap st !!! l) h.
Proof.
  intros Hwf Hin. unfold dispatch_targets.
  rewrite (owned_present (heap st) h args n (plugins st) l); [|apply Hwf| |done].
  - destruct (table_wf_elem_of st n l Hwf Hin) as [_ Hn]. by subst n.
  - destruct Hwf as [_ Hall]. eapply Forall_impl; [apply Hall|]. by intros ? [_ ?].
Qed.

(** Within a dispatch, the calls of one plugin of the table are its
    callbacks for the hook, each once, in the order of its list. *)
Lemma call_hook_per_plugin h args st n l :
  table_wf st → (n, l) ∈ plugins st →
  ∃ cs st',
    call_hook h args st = (Return tt, st') ∧
    host_eq st st' ∧
    calls st' = calls st ++ cs ∧
    call_target <$> filter (λ c, call_plugin c = n) cs
      = (λ f, (n, h, f, args)) <$> funcs_of (heap st !!! l) h.
Proof.
  intros Hwf Hin.
  destruct (call_hook_spec h args st) as (cs & st' & Hrun & Hhost & Hcalls & Htargets & _).
  exists cs, st'. repeat (split; [done|]).
  rewrite <-(dispatch_targets_owned st h args n l Hwf Hin), <-Htargets.
  by rewrite filter_fmap.
Qed.

Lemma hooks_after_lookup (regs : list (string * @pyvalue W Args)) hk h :
  default [] (hooks_after regs hk !! h)
    = default [] (hk !! h) ++ (filter (λ nf, nf.1 = h) regs).*2.
Proof.
  revert hk. induction regs as [|[n f] regs IH]; intros hk.
  - by rewrite app_nil_r.
  - unfold hooks_after in *. cbn [foldl]. rewrite IH. cbn [fst snd].
    rewrite add_hook_insert, filter_cons. cbn [fst].
    destruct (decide (n = h)) as [->|Hne].
    + rewrite lookup_insert_eq. cbn. by rewrite <-app_assoc.
    + by rewrite lookup_insert_ne.
Qed.

(** ** Choosing the destination of an install *)

Lemma suffixed_not_special base (s : string) :
  base +:+ "_" +:+ s ∉ [""; "."; ".."].
Proof.
  rewrite !not_elem_of_cons.
  destruct base as [|a [|b [|c base]]]; cbn;
    (split; [|split; [|split]]); first [discriminate|apply not_elem_of_nil].
Qed.

Lemma candidate_S_exists fs base k :
  path_exists fs (candidate base (S k)) = true → is_Some (fs !! candidate base (S k)).
Proof.
  unfold path_exists, candidate.
  rewrite bool_decide_eq_false_2 by apply suffixed_not_special.
  cbn. apply bool_decide_eq_true.
Qed.

#[local] Instance candidate_S_inj base : Inj (=) (=) (λ k, candidate base (S k)).
Proof.
  intros i j Heq. unfold candidate in Heq.
  apply (inj (String.append base)), (inj (String.append "_")) in Heq.
  by apply (inj pretty), (inj S) in Heq.
Qed.

(** Fewer than all tried names exist: at most as many as the disk has
    entries. *)
Lemma candidates_bounded fs base n :
  (∀ i, i < n → path_exists fs (candidate base (S i)) = true) → n ≤ size fs.
Proof.
  intros Hall.
  set (C := (λ k, candidate base (S k)) <$> seq 0 n).
  assert (Hnd : NoDup C) by apply (NoDup_fmap_2 _), NoDup_seq.
  assert (Hsub : list_to_set (C:=gset string) C ⊆ dom fs).
  { intros x [i [-> Hi%elem_of_seq]]%elem_of_list_to_set%list_elem_of_fmap.
    apply elem_of_dom, candidate_S_exists, Hall. lia. }
  apply subseteq_size in Hsub.
  rewrite size_list_to_set, size_dom in Hsub by done.
  subst C. by rewrite length_fmap, length_seq in Hsub.
Qed.

Lemma while_exists_Some fuel fs base k d :
  while_exists fuel fs base (candidate base k) (S k) = Some d →
  ∃ j, k ≤ j ∧ d = candidate base j ∧
       path_exists fs (candidate base j) = false ∧
       ∀ i, k ≤ i < j → path_exists fs (candidate base i) = true.
Proof.
  revert k. induction fuel as [|fuel IH]; intros k; cbn [while_exists];
    destruct (path_exists fs (candidate base k)) eqn:Hk; try done.
  - intros [= <-]. exists k. do 3 (split; [done|]). intros i. lia.
  - intros Hrun. destruct (IH (S k) Hrun) as (j & Hj & -> & Hfree & Hbelow).
    exists j. split; [lia|]. do 2 (split; [done|]).
    intros i Hi. destruct (decide (i = k)) as [->|]; [done|]. apply Hbelow. lia.
  - intros [= <-]. exists k. do 3 (split; [done|]). intros i. lia.
Qed.

Lemma while_exists_None fuel fs base k :
  while_exists fuel fs base (candidate base k) (S k) = None →
  ∀ i, k ≤ i ≤ k + fuel → path_exists fs (candidate base i) = true.
Proof.
  revert k. induction fuel as [|fuel IH]; intros k; cbn [while_exists];
    destruct (path_exists fs (candidate base k)) eqn:Hk; try done.
  - intros _ i Hi. by replace i with k by lia.
  - intros Hrun i Hi. destruct (decide (i = k)) as [->|]; [done|].
    apply (IH (S k) Hrun). lia.
Qed.

(** The loop of [install_plugin] ends: it returns the first of the
    names [base], [base_1], [base_2], ... that does not exist. *)
Lemma choose_dest_spec fs base :
  ∃ k, choose_dest fs base = Some (candidate base k) ∧
       path_exists fs (candidate base k) = false ∧
       ∀ i, i < k → path_exists fs (candidate base i) = true.
Proof.
  unfold choose_dest.
  destruct (while_exists (S (size fs)) fs base base 1) as [d|] eqn:Hrun.
  - destruct (while_exists_Some _ fs base 0 d Hrun) as (j & _ & -> & Hfree & Hbelow).
    exists j. do 2 (split; [done|]). intros i Hi. apply Hbelow. lia.
  - pose proof (while_exists_None _ fs base 0 Hrun) as Hall.
    assert (S (size fs) ≤ size fs); [|lia].
    apply (candidates_bounded fs base). intros i Hi. apply Hall. lia.
Qed.

Lemma extracted_lookup z k :
  is_Some (extracted z !! k) ↔ k ∈ namelist z.
Proof.
  unfold extracted, namelist.
  assert (Hgen : ∀ (l : list (string * @pyfile W Args)) (m : gmap string pyfile),
    is_Some (foldl (λ m kv, <[kv.1 := kv.2]> m) m l !! k) ↔ is_Some (m !! k) ∨ k ∈ l.*1).
  { induction l as [|[k' v'] l IH]; intros m; cbn [foldl].
    - rewrite fmap_nil. split; [by left|]. by intros [?|?%not_elem_of_nil].
    - rewrite IH, fmap_cons, elem_of_cons, lookup_insert_is_Some. cbn.
      destruct (decide (k' = k)) as [->|Hne]; intuition congruence. }
  rewrite Hgen, lookup_empty. split; [|by right].
  by intros [[? [=]]|?].
Qed.

(** [install_plugin] in closed form, for an archive with the entrypoint. *)
Lemma install_plugin_eq scpl_path z st :
  "plugin-main.py" ∈ namelist z →
  ∃ k,
    path_exists (disk st) (candidate (scpl_stem z) k) = false ∧
    (∀ i, i < k → path_exists (disk st) (candidate (scpl_stem z) i) = true) ∧
    install_plugin scpl_path (Some z) st =
      let dest := candidate (scpl_stem z) k in
      let run := load_plugin_from_dir dest
                   (set_disk (<[dest := Directory (extracted z)]>) st) in
      (match run.1 with Return _ => Return dest | Raise e => Raise e end, run.2).
Proof.
  intros Hmain.
  destruct (choose_dest_spec (disk st) (scpl_stem z)) as (k & Hdest & Hfree & Hbelow).
  exists k. repeat (split; [done|]).
  unfold install_plugin. rewrite bool_decide_eq_true_2 by done.
  unfold mbind at 1, M_bind at 1, bind at 1. cbn [gets]. rewrite Hdest.
  unfold mbind, M_bind, bind, extractall, modify. cbn zeta.
  by destruct (load_plugin_from_dir _ _) as [[[]|e] st2].
Qed.

(** ** Discovery *)

Lemma loads_is_dir fs n : loads fs n = true → is_dir fs n = true.
Proof.
  unfold loads, load_error, dir_file, is_dir.
  by destruct (fs !! n) as [[|files]|].
Qed.

(** One iteration of the loop of [load_all_plugins]. *)
Lemma load_all_step q st :
  ∃ st',
    (d ← gets (λ st, is_dir (disk st) q);
     if (d : bool) then
       try_except (load_plugin_from_dir q)
         (λ e, print ("Failed loading plugin " +:+ str_path q +:+ " " +:+ exn_str e))
     else ret tt) st = (Return tt, st') ∧
    disk st' = disk st ∧ world st' = world st ∧ calls st' = calls st ∧
    next_loc st ≤ next_loc st' ∧
    (table_wf st → table_wf st') ∧
    stdout st' = stdout st ++ (if is_dir (disk st) q then [load_line (disk st) q] else []) ∧
    plugins st' = (if loads (disk st) q then dict_set q (next_loc st) (plugins st)
                   else plugins st).
Proof.
  unfold mbind, M_bind, bind, gets.
  destruct (is_dir (disk st) q) eqn:Hdir.
  - destruct (load_plugin_from_dir_cases q st)
      as (res & st1 & Hrun & Hdisk & Hworld & Hcalls & Hnext & _ & Hres).
    pose proof (λ H, load_plugin_from_dir_wf q st res st1 H Hrun) as Hwf.
    unfold try_except, loads, load_line. rewrite Hrun.
    destruct (load_error (disk st) q) as [e|].
    + destruct Hres as (-> & Htable & Hout). eexists. split; [reflexivity|].
      cbn. rewrite Hout. split_and!; [done|done|done|lia| |done|done].
      intros Hst. apply Hwf, Hst.
    + destruct Hres as (-> & Htable & Hout & _). exists st1.
      split_and!; [done|done|done|done|lia|done|done|done].
  - exists st. rewrite app_nil_r.
    destruct (loads (disk st) q) eqn:Hloads.
    + apply loads_is_dir in Hloads. congruence.
    + by split_and!.
Qed.

Lemma load_all_loop (ns : list string) st :
  ∃ st',
    for_each ns (λ q,
      d ← gets (λ st, is_dir (disk st) q);
      if (d : bool) then
        try_except (load_plugin_from_dir q)
          (λ e, print ("Failed loading plugin " +:+ str_path q +:+ " " +:+ exn_str e))
      else ret tt) st = (Return tt, st') ∧
    disk st' = disk st ∧ world st' = world st ∧ calls st' = calls st ∧
    next_loc st ≤ next_loc st' ∧
    (table_wf st → table_wf st') ∧
    stdout st' = stdout st
                   ++ (load_line (disk st) <$> filter (λ n, is_dir (disk st) n) ns) ∧
    (∀ n, n ∈ (plugins st').*1 ↔
          n ∈ (plugins st).*1 ∨ (n ∈ ns ∧ loads (disk st) n = true)) ∧
    (∀ n l, (n, l) ∈ plugins st' → (n, l) ∈ plugins st ∨ next_loc st ≤ l).
Proof.
  revert st. induction ns as [|q ns IH]; intros st.
  - exists st. rewrite filter_nil, app_nil_r.
    split_and!; [done|done|done|done|lia|done|done| |by left].
    intros n. split; [by left|]. by intros [?|[?%not_elem_of_nil _]].
  - destruct (load_all_step q st)
      as (st1 & Hrun & Hdisk & Hworld & Hcalls & Hnext & Hwf & Hout & Htable).
    destruct (IH st1)
      as (st2 & Hrest & Hdisk2 & Hworld2 & Hcalls2 & Hnext2 & Hwf2 & Hout2 & Hkeys & Hnew).
    exists st2. split.
    { cbn [for_each]. unfold mbind at 1, M_bind at 1, bind at 1. by rewrite Hrun. }
    rewrite Hdisk in *.
    split; [congruence|]. split; [congruence|]. split; [congruence|].
    split; [lia|]. split; [tauto|]. split.
    { rewrite Hout2, Hout, <-app_assoc. f_equal. rewrite filter_cons.
      by destruct (is_dir (disk st) q). }
    split.
    + intros n. rewrite Hkeys, Htable, elem_of_cons.
      destruct (loads (disk st) q) eqn:Hloads.
      * rewrite dict_set_keys. case_decide as Hp.
        -- split; [intros [?|[? ?]]; [by left|by right; split; [right|]]|].
           intros [?|[[->|?] ?]]; [by left|by left|by right].
        -- rewrite elem_of_app, list_elem_of_singleton.
           split; [intros [[?| ->]|[? ?]]|intros [?|[[->|?] ?]]]; tauto.
      * split; [intros [?|[? ?]]; [by left|by right; split; [right|]]|].
        intros [?|[[->|?] ?]]; [by left|congruence|by right].
    + intros n l [Hin|Hl]%Hnew; [|right; lia].
      rewrite Htable in Hin. destruct (loads (disk st) q); [|by left].
      apply dict_set_elem_of_inv in Hin as [[-> ->]|?]; [by right|by left].
Qed.

Lemma set_plugins_wf st : table_wf (set_plugins (λ _, []) st).
Proof. split; cbn; [apply NoDup_nil_2|apply Forall_nil_2]. Qed.

Lemma loads_iterdir fs n : loads fs n = true → n ∈ iterdir fs.
Proof.
  intros Hdir%loads_is_dir. unfold is_dir in Hdir. unfold iterdir.
  destruct (fs !! n) as [e|] eqn:Hn; [|done].
  apply list_elem_of_fmap. exists (n, e). split; [done|].
  by apply elem_of_map_to_list.
Qed.

(** ** Discovery with the class of the exception *)

(** What [load_plugin_from_dir] raises itself is an instance of
    [Exception]. *)
Lemma load_error_is_Exception fs path e :
  load_error fs path = Some e → is_Exception e = true.
Proof.
  unfold load_error, entrypoint_error.
  destruct (dir_file fs path "plugin-main.py") as [[e0|[r|]]|].
  - by intros [= <-].
  - destruct (reg_outcome r); [done|]. by intros [= <-].
  - by intros [= <-].
  - by intros [= <-].
Qed.

(** [Strict.load_plugin_from_dir] by what the plugin code raises: an
    exception outside [Exception] leaves the load as it is, all else is
    as in [load_plugin_from_dir]. *)
Lemma strict_load_plugin_from_dir_eq path st :
  let l := next_loc st in
  let st0 := set_next_loc (S l) (set_heap l (Plugin_init path path) st) in
  Strict.load_plugin_from_dir path st =
    match dir_file (disk st) path "plugin-main.py" with
    | Some (ExecRaises e) =>
        if is_Exception e then load_plugin_from_dir path st else (Raise e, st0)
    | Some (ExecModule (Some r)) =>
        match reg_outcome r with
        | Returned => load_plugin_from_dir path st
        | Raised e =>
            if is_Exception e then load_plugin_from_dir path st
            else (Raise e, set_heap l (registered_plugin path r) st0)
        end
    | _ => load_plugin_from_dir path st
    end.
Proof.
  intros l st0. rewrite load_plugin_from_dir_eq. fold l. fold st0.
  unfold Strict.load_plugin_from_dir.
  unfold mbind at 1, M_bind at 1, bind at 1. cbn [new_Plugin].
  fold l. fold st0.
  unfold mbind at 1, M_bind at 1, bind at 1. cbn [gets].
  replace (disk st0) with (disk st) by done.
  destruct (dir_file (disk st) path "plugin-main.py") as [[e|[r|]]|]; [| | |done].
  - unfold mbind at 1, M_bind at 1, bind at 1. cbn [try_except_in exec_module raise].
    by destruct (is_Exception e).
  - unfold mbind at 1, M_bind at 1, bind at 1. cbn [try_except_in exec_module ret mod_register].
    unfold mbind at 1, M_bind at 1, bind at 1. unfold try_except_in at 1.
    rewrite (run_register_eq r _ (Plugin_init path path))
      by (subst st0; cbn; by rewrite lookup_insert_eq).
    cbn [_plugin hooks Plugin_init].
    fold (registered_plugin path r).
    destruct (reg_outcome r) as [|e]; cbn [to_result].
    + unfold mbind, M_bind, bind, modify, print. cbn [heap set_heap].
      rewrite lookup_total_insert_eq. by rewrite set_heap_twice.
    + by destruct (is_Exception e).
  - done.
Qed.

Lemma strict_load_plugin_from_dir_tame path st :
  escapes (disk st) path = false →
  Strict.load_plugin_from_dir path st = load_plugin_from_dir path st.
Proof.
  intros Hesc. rewrite strict_load_plugin_from_dir_eq. unfold escapes in Hesc.
  destruct (dir_file (disk st) path "plugin-main.py") as [[e|[r|]]|]; [| |done|done].
  - by destruct (is_Exception e).
  - destruct (reg_outcome r) as [|e]; [done|]. by destruct (is_Exception e).
Qed.

(** A load of the manager with the class test that returns is the load
    of [load_plugin_from_dir]. *)
Lemma strict_load_plugin_from_dir_Return path st st1 :
  Strict.load_plugin_from_dir path st = (Return tt, st1) →
  load_plugin_from_dir path st = (Return tt, st1).
Proof.
  rewrite strict_load_plugin_from_dir_eq.
  destruct (dir_file (disk st) path "plugin-main.py") as [[e|[r|]]|]; [| |done|done].
  - by destruct (is_Exception e).
  - destruct (reg_outcome r) as [|e]; [done|]. by destruct (is_Exception e).
Qed.


(** Two loop bodies that agree on the states of the iteration give the
    same loop. *)
Lemma for_each_agree {A} (I : @state W Args → Prop) (l : list A)
    (b1 b2 : A → @M W Args unit) st :
  (∀ x s, x ∈ l → I s → b1 x s = b2 x s ∧ I (b2 x s).2) →
  I st → for_each l b1 st = for_each l b2 st.
Proof.
  revert st. induction l as [|x l IH]; intros st Hb HI; [done|].
  cbn [for_each]. unfold mbind, M_bind, bind.
  destruct (Hb x st) as [Heq HI']; [by apply elem_of_cons; left|done|].
  rewrite Heq. destruct (b2 x st) as [[[]|e] st1]; [|done].
  apply IH; [|done]. intros y s Hy. apply Hb, elem_of_cons. by right.
Qed.

(** The loop of discovery over directories whose plugin code does not
    raise outside [Exception] is the loop of [load_all_plugins]. *)
Lemma strict_load_loop_tame (ns : list string) st :
  Forall (λ n, escapes (disk st) n = false) ns →
  for_each ns (λ q,
    d ← gets (λ st, is_dir (disk st) q);
    if (d : bool) then
      try_except_in is_Exception (Strict.load_plugin_from_dir q)
        (λ e, print ("Failed loading plugin " +:+ str_path q +:+ " " +:+ exn_str e))
    else ret tt) st
  = for_each ns (λ q,
      d ← gets (λ st, is_dir (disk st) q);
      if (d : bool) then
        try_except (load_plugin_from_dir q)
          (λ e, print ("Failed loading plugin " +:+ str_path q +:+ " " +:+ exn_str e))
      else ret tt) st.
Proof.
  intros Htame.
  apply (for_each_agree (λ s, disk s = disk st)); [|done].
  intros q s Hq Hs.
  destruct (load_all_step q s) as (s1 & Hrun & Hdisk & _).
  rewrite Hrun. cbn [snd]. split; [|congruence].
  rewrite <-Hrun. unfold mbind, M_bind, bind, gets.
  destruct (is_dir (disk s) q); [|done].
  unfold try_except_in, try_except.
  rewrite strict_load_plugin_from_dir_tame
    by (rewrite Hs; by eapply Forall_forall in Htame).
  destruct (load_plugin_from_dir_cases q s) as (res & s2 & Hload & _ & _ & _ & _ & _ & Hres).
  rewrite Hload. destruct res as [[]|e]; [done|].
  destruct (load_error (disk s) q) as [e'|] eqn:Herr; [|by destruct Hres].
  destruct Hres as ([= ->] & _). by rewrite (load_error_is_Exception _ _ _ Herr).
Qed.

Lemma strict_load_all_plugins_unfold st :
  Strict.load_all_plugins None st
  = for_each (iterdir (disk st)) (λ q,
      d ← gets (λ st, is_dir (disk st) q);
      if (d : bool) then
        try_except_in is_Exception (Strict.load_plugin_from_dir q)
          (λ e, print ("Failed loading plugin " +:+ str_path q +:+ " " +:+ exn_str e))
      else ret tt) (set_plugins (λ _, []) st).
Proof. done. Qed.

Lemma load_all_plugins_unfold st :
  load_all_plugins st
  = for_each (iterdir (disk st)) (λ q,
      d ← gets (λ st, is_dir (disk st) q);
      if (d : bool) then
        try_except (load_plugin_from_dir q)
          (λ e, print ("Failed loading plugin " +:+ str_path q +:+ " " +:+ exn_str e))
      else ret tt) (set_plugins (λ _, []) st).
Proof. done. Qed.

(** Where no plugin code raises outside [Exception] and the root can
    be listed, discovery is [load_all_plugins]. *)
Lemma strict_load_all_plugins_tame st :
  Forall (λ n, escapes (disk st) n = false) (iterdir (disk st)) →
  Strict.load_all_plugins None st = load_all_plugins st.
Proof.
  intros Htame. rewrite strict_load_all_plugins_unfold, load_all_plugins_unfold.
  by apply strict_load_loop_tame.
Qed.

(** When the root cannot be listed, the listing raises before the
    loop, the table cleared already. *)
Lemma strict_load_all_plugins_no_root e st :
  Strict.load_all_plugins (Some e) st = (Raise e, set_plugins (λ _, []) st).
Proof. done. Qed.

(** A load of plugin code that raises outside [Exception] raises that
    exception and leaves table, output and disk as they are. *)
Lemma strict_load_plugin_from_dir_escape path st :
  escapes (disk st) path = true →
  ∃ e st',
    Strict.load_plugin_from_dir path st = (Raise e, st') ∧
    is_Exception e = false ∧ is_dir (disk st) path = true ∧
    plugins st' = plugins st ∧ stdout st' = stdout st ∧ disk st' = disk st ∧
    world st' = world st ∧ calls st' = calls st.
Proof.
  intros Hesc. rewrite strict_load_plugin_from_dir_eq.
  assert (Hdir : is_dir (disk st) path = true).
  { unfold escapes, dir_file in Hesc. unfold is_dir.
    by destruct (disk st !! path) as [[|files]|]. }
  unfold escapes in Hesc.
  destruct (dir_file (disk st) path "plugin-main.py") as [[e|[r|]]|]; [| |done|done].
  - destruct (is_Exception e) eqn:He; [done|]. by eexists e, _.
  - destruct (reg_outcome r) as [|e]; [done|].
    destruct (is_Exception e) eqn:He; [done|]. by eexists e, _.
Qed.

Lemma for_each_app {A} (l1 l2 : list A) (body : A → @M W Args unit) st :
  for_each (l1 ++ l2) body st =
    match for_each l1 body st with
    | (Return _, s) => for_each l2 body s
    | (Raise e, s) => (Raise e, s)
    end.
Proof.
  revert st. induction l1 as [|x l1 IH]; intros st; [done|].
  cbn [app for_each]. unfold mbind, M_bind, bind.
  destruct (body x st) as [[[]|e] s]; [|done]. apply IH.
Qed.


(** ** Uninstalling *)

Lemma dict_pop_get {V} k (d : list (string * V)) : dict_get k (dict_pop k d) = None.
Proof. apply dict_get_None. rewrite dict_pop_keys. by intros [? _]. Qed.


(** ** A registration that fails part-way *)

Lemma dispatch_targets_ext st st' h args :
  plugins st' = plugins st →
  Forall (λ nl, heap st' !!! nl.2 = heap st !!! nl.2) (plugins st) →
  dispatch_targets st' h args = dispatch_targets st h args.
Proof.
  unfold dispatch_targets. intros ->.
  induction 1 as [|[n l] d Hl Hd IH]; [done|].
  rewrite !fmap_cons, !bind_cons, IH. cbn in Hl |- *. by rewrite Hl.
Qed.


(** ** Installing from an archive *)

Lemma path_exists_false fs n : path_exists fs n = false → fs !! n = None.
Proof.
  unfold path_exists. intros [_ Hn]%orb_false_elim.
  apply bool_decide_eq_false in Hn. by apply eq_None_not_Some.
Qed.

(** C4: for an archive that holds the entrypoint, [install_plugin]
    extracts into the first of the names [base], [base_1], [base_2], ...
    (with [base] the stem of the archive) that does not exist below the
    plugins root: all names tried before it exist, the chosen one does
    not, and the disk afterwards is the disk before plus the new
    directory, every existing entry being what it was.  A plugin of the
    table whose directory exists keeps its record and its object, and a
    dispatch after the install calls its callbacks as before. *)
Theorem install_plugin_fresh_dest scpl_path z st :
  "plugin-main.py" ∈ namelist z →
  ∃ k res st',
    install_plugin scpl_path (Some z) st = (res, st') ∧
    (∀ i, i < k → path_exists (disk st) (candidate (scpl_stem z) i) = true) ∧
    path_exists (disk st) (candidate (scpl_stem z) k) = false ∧
    disk st' = <[candidate (scpl_stem z) k := Directory (extracted z)]> (disk st) ∧
    (∀ n, is_Some (disk st !! n) → disk st' !! n = disk st !! n) ∧
    (table_wf st → ∀ n l, (n, l) ∈ plugins st → is_Some (disk st !! n) →
       (n, l) ∈ plugins st' ∧
       heap st' !!! l = heap st !!! l ∧
       (∀ h args, ∃ cs st'',
          call_hook h args st' = (Return tt, st'') ∧
          calls st'' = calls st' ++ cs ∧
          call_target <$> filter (λ c, call_plugin c = n) cs
            = (λ f, (n, h, f, args)) <$> funcs_of (heap st !!! l) h)).
Proof.
  intros Hmain.
  destruct (install_plugin_eq scpl_path z st Hmain) as (k & Hfree & Hbelow & Heq).
  cbn zeta in Heq.
  set (dest := candidate (scpl_stem z) k) in *.
  set (st1 := set_disk (<[dest := Directory (extracted z)]>) st) in *.
  destruct (load_plugin_from_dir_cases dest st1)
    as (res1 & st2 & Hrun & Hdisk & _ & _ & Hnext & Hheap & Hres).
  rewrite Hrun in Heq. cbn [fst snd] in Heq.
  pose proof (path_exists_false _ _ Hfree) as Hnone.
  eexists k, _, st2. split; [exact Heq|].
  split; [exact Hbelow|]. split; [exact Hfree|]. split; [exact Hdisk|].
  split.
  { intros n Hn. rewrite Hdisk. cbn. apply lookup_insert_ne.
    intros ->. rewrite Hnone in Hn. by destruct Hn. }
  intros Hwf n l Hin Hn.
  assert (Hne : n ≠ dest) by (intros ->; rewrite Hnone in Hn; by destruct Hn).
  destruct (table_wf_elem_of st n l Hwf Hin) as [Hl _].
  assert (Hwf2 : table_wf st2) by exact (load_plugin_from_dir_wf dest st1 res1 st2 Hwf Hrun).
  assert (Hin2 : (n, l) ∈ plugins st2).
  { destruct (load_error (disk st1) dest).
    - destruct Hres as (_ & -> & _). exact Hin.
    - destruct Hres as (_ & -> & _). by apply dict_set_elem_of_ne. }
  assert (Hobj : heap st2 !!! l = heap st !!! l).
  { apply lookup_total_frame. rewrite Hheap; [done|]. cbn. lia. }
  split; [exact Hin2|]. split; [exact Hobj|].
  intros h args.
  destruct (call_hook_per_plugin h args st2 n l Hwf2 Hin2)
    as (cs & st3 & Hcall & _ & Hcalls & Hown).
  exists cs, st3. rewrite <-Hobj. done.
Qed.

(** C5: [install_plugin] raises a [RuntimeError] when the archive has no
    member [plugin-main.py] at its root, and then changes nothing.
    Otherwise it extracts and loads the new directory: when that load
    returns, the install returns the destination; when that load raises,
    the install raises the same exception. *)
Theorem install_plugin_result scpl_path z st :
  ("plugin-main.py" ∉ namelist z →
   install_plugin scpl_path (Some z) st
     = (Raise (RuntimeError ".scpl must contain plugin-main.py at root"), st)) ∧
  ("plugin-main.py" ∈ namelist z →
   ∃ k,
     path_exists (disk st) (candidate (scpl_stem z) k) = false ∧
     ∀ res1 st2,
       load_plugin_from_dir (candidate (scpl_stem z) k)
         (set_disk (<[candidate (scpl_stem z) k := Directory (extracted z)]>) st)
         = (res1, st2) →
       install_plugin scpl_path (Some z) st
         = (match res1 with
            | Return _ => Return (candidate (scpl_stem z) k)
            | Raise e => Raise e
            end, st2)).
Proof.
  split.
  - intros Hmain. unfold install_plugin. by rewrite bool_decide_eq_false_2.
  - intros Hmain.
    destruct (install_plugin_eq scpl_path z st Hmain) as (k & Hfree & _ & Heq).
    exists k. split; [done|]. intros res1 st2 Hrun.
    rewrite Heq. cbn zeta. by rewrite Hrun.
Qed.

Lemma load_line_elem_of fs n :
  is_dir fs n = true →
  load_line fs n ∈ load_line fs <$> filter (λ n, is_dir fs n) (iterdir fs).
Proof.
  intros Hdir. apply list_elem_of_fmap_2, list_elem_of_filter.
  split; [by rewrite Hdir|].
  unfold is_dir in Hdir. unfold iterdir.
  destruct (fs !! n) as [e|] eqn:Hn; [|done].
  apply list_elem_of_fmap. exists (n, e). split; [done|].
  by apply elem_of_map_to_list.
Qed.


End Properties.

(** * The theorems at work on the example directory *)



Lemma failed_load_adds_no_record_witness :
  dir_file (disk ex_st) "empty" "plugin-main.py" = None ∧
  ∃ err st',
    load_plugin_from_dir "empty" ex_st = (Raise err, st') ∧
    plugins st' = plugins ex_st ∧
    disk st' = disk ex_st ∧
    exn_class err =
      match dir_file (disk ex_st) "empty" "plugin-main.py" with
      | Some _ => "RuntimeError"
      | None => "FileNotFoundError"
      end.
Proof.
  assert (Hmissing : dir_file (disk ex_st) "empty" "plugin-main.py" = None)
    by (vm_compute; reflexivity).
  split; [exact Hmissing|].
  apply (failed_load_adds_no_record "empty" ex_st). left. exact Hmissing.
Defined.

Lemma install_plugin_fresh_dest_witness :
  "plugin-main.py" ∈ namelist ex_scpl ∧
  table_wf ex_st ∧ ("a", 1) ∈ plugins ex_st ∧ is_Some (disk ex_st !! "a") ∧
  ∃ k res st',
    install_plugin "/tmp/a.scpl" (Some ex_scpl) ex_st = (res, st') ∧
    (∀ i, i < k → path_exists (disk ex_st) (candidate (scpl_stem ex_scpl) i) = true) ∧
    path_exists (disk ex_st) (candidate (scpl_stem ex_scpl) k) = false ∧
    disk st' = <[candidate (scpl_stem ex_scpl) k := Directory (extracted ex_scpl)]>
                 (disk ex_st) ∧
    (∀ n, is_Some (disk ex_st !! n) → disk st' !! n = disk ex_st !! n) ∧
    (table_wf ex_st → ∀ n l, (n, l) ∈ plugins ex_st → is_Some (disk ex_st !! n) →
       (n, l) ∈ plugins st' ∧
       heap st' !!! l = heap ex_st !!! l ∧
       (∀ h args, ∃ cs st'',
          call_hook h args st' = (Return tt, st'') ∧
          calls st'' = calls st' ++ cs ∧
          call_target <$> filter (λ c, call_plugin c = n) cs
            = (λ f, (n, h, f, args)) <$> funcs_of (heap ex_st !!! l) h)).
Proof.
  assert (Hmain : "plugin-main.py" ∈ namelist ex_scpl)
    by (apply (bool_decide_unpack _); vm_compute; exact I).
  split; [exact Hmain|].
  split; [apply (bool_decide_unpack _); vm_compute; exact I|].
  split; [apply (bool_decide_unpack _); vm_compute; exact I|].
  split; [vm_compute; eexists; reflexivity|].
  exact (install_plugin_fresh_dest "/tmp/a.scpl" ex_scpl ex_st Hmain).
Defined.

Lemma install_plugin_result_witness :
  ("plugin-main.py" ∉ namelist ex_scpl_none) ∧
  install_plugin "/tmp/c.scpl" (Some ex_scpl_none) ex_st
    = (Raise (RuntimeError ".scpl must contain plugin-main.py at root"), ex_st) ∧
  "plugin-main.py" ∈ namelist ex_scpl ∧
  ∃ k,
    path_exists (disk ex_st) (candidate (scpl_stem ex_scpl) k) = false ∧
    ∀ res1 st2,
      load_plugin_from_dir (candidate (scpl_stem ex_scpl) k)
        (set_disk (<[candidate (scpl_stem ex_scpl) k := Directory (extracted ex_scpl)]>)
           ex_st) = (res1, st2) →
      install_plugin "/tmp/a.scpl" (Some ex_scpl) ex_st
        = (match res1 with
           | Return _ => Return (candidate (scpl_stem ex_scpl) k)
           | Raise e => Raise e
           end, st2).
Proof.
  assert (Hno : "plugin-main.py" ∉ namelist ex_scpl_none)
    by (apply (bool_decide_unpack _); vm_compute; exact I).
  assert (Hmain : "plugin-main.py" ∈ namelist ex_scpl)
    by (apply (bool_decide_unpack _); vm_compute; exact I).
  split; [exact Hno|].
  split; [exact (proj1 (install_plugin_result "/tmp/c.scpl" ex_scpl_none ex_st) Hno)|].
  split; [exact Hmain|].
  exact (proj2 (install_plugin_result "/tmp/a.scpl" ex_scpl ex_st) Hmain).
Defined.








(** Plugin [a]'s first callback raises, yet its second callback and the
    callback of [b] have run, with the argument of the dispatch. *)
Example ex_dispatch_isolated :
  (call_hook "x" ["/tmp/f.py"] ex_st).1 = Return tt ∧
  world (call_hook "x" ["/tmp/f.py"] ex_st).2 = ["a:/tmp/f.py"; "Scriptor:/tmp/f.py"] ∧
  call_plugin <$> calls (call_hook "x" ["/tmp/f.py"] ex_st).2 = ["a"; "a"; "b"].
Proof. split_and!; vm_compute; reflexivity. Qed.

(** The same dispatch by the manager whose handler tests the class:
    [ValueError] is an instance of [Exception], the line for it is
    printed and the two callbacks after it are called. *)
Example ex_strict_dispatch_isolated :
  (Strict.call_hook "x" ["/tmp/f.py"] ex_st).1 = Return tt ∧
  world (Strict.call_hook "x" ["/tmp/f.py"] ex_st).2
    = ["a:/tmp/f.py"; "Scriptor:/tmp/f.py"] ∧
  call_plugin <$> calls (Strict.call_hook "x" ["/tmp/f.py"] ex_st).2 = ["a"; "a"; "b"] ∧
  last (stdout (Strict.call_hook "x" ["/tmp/f.py"] ex_st).2)
    = Some ("Plugin a hook x error:" +:+ nl +:+ " Traceback (most recent call last):"
              +:+ nl +:+ "ValueError: boom" +:+ nl).
Proof. split_and!; vm_compute; reflexivity. Qed.

(** Installing [a.scpl] next to the plugin [a] extracts into [a_1]. *)
Example ex_install_suffix :
  (install_plugin "/tmp/a.scpl" (Some ex_scpl) ex_st).1 = Return "a_1" ∧
  (plugins (install_plugin "/tmp/a.scpl" (Some ex_scpl) ex_st).2).*1 = ["a"; "b"; "a_1"].
Proof. split; vm_compute; reflexivity. Qed.

(** * Further properties of the manager *)

Section Invariant.
Context {W Args : Type}.
Implicit Types (st : @state W Args) (z : @scpl_archive W Args).
Implicit Types (fs : gmap string (@entry W Args)).

Lemma for_each_inv {A} (I : @state W Args → Prop) (body : A → M unit) (l : list A) st :
  (∀ x s, I s → I (body x s).2) → I st → I (for_each l body st).2.
Proof.
  intros Hbody. revert st. induction l as [|x l IH]; intros st Hst; [done|].
  cbn [for_each]. unfold mbind, M_bind, bind.
  pose proof (Hbody x st Hst) as Hx.
  destruct (body x st) as [[[]|e] s1]; cbn in Hx |- *; [by apply IH|done].
Qed.

Lemma dir_file_is_dir fs d f x : dir_file fs d f = Some x → is_dir fs d = true.
Proof. unfold dir_file, is_dir. by destruct (fs !! d) as [[|files]|]. Qed.

Lemma is_dir_insert fs d files n :
  is_dir fs n = true → is_dir (<[d := Directory files]> fs) n = true.
Proof.
  unfold is_dir. destruct (decide (d = n)) as [->|Hne].
  - by rewrite lookup_insert_eq.
  - by rewrite lookup_insert_ne.
Qed.

Lemma is_dir_delete fs d n : d ≠ n → is_dir (delete d fs) n = is_dir fs n.
Proof. intros Hne. unfold is_dir. by rewrite lookup_delete_ne. Qed.

Lemma dict_pop_NoDup {V} k (d : list (string * V)) : NoDup d.*1 → NoDup (dict_pop k d).*1.
Proof.
  induction d as [|[k1 v1] d IH]; [done|]. cbn.
  rewrite NoDup_cons. intros [Hk1 Hd].
  destruct (decide (k1 = k)); [by apply IH|].
  cbn. apply NoDup_cons. split; [|by apply IH].
  rewrite dict_pop_keys. by intros [_ ?].
Qed.

Lemma manager_inv_elem_of st n l :
  manager_inv st → (n, l) ∈ plugins st →
  l < next_loc st ∧ name (heap st !!! l) = n ∧
  path (heap st !!! l) = n ∧ is_dir (disk st) n = true.
Proof.
  intros [Hwf Hall] Hin.
  destruct (table_wf_elem_of st n l Hwf Hin) as [Hl Hn].
  pose proof (proj1 (Forall_forall _ _) Hall (n, l) Hin) as [Hp Hd].
  done.
Qed.

(** The invariant follows the table, the objects of the table and the
    directories of the table. *)
Lemma manager_inv_frame st st' :
  manager_inv st →
  NoDup (plugins st').*1 →
  next_loc st ≤ next_loc st' →
  (∀ n l, (n, l) ∈ plugins st' →
     ((n, l) ∈ plugins st ∧ heap st' !!! l = heap st !!! l ∧
      (is_dir (disk st) n = true → is_dir (disk st') n = true)) ∨
     (l < next_loc st' ∧ name (heap st' !!! l) = n ∧
      path (heap st' !!! l) = n ∧ is_dir (disk st') n = true)) →
  manager_inv st'.
Proof.
  intros Hinv Hnd Hnext Hrec.
  assert (Hall : ∀ n l, (n, l) ∈ plugins st' →
            l < next_loc st' ∧ name (heap st' !!! l) = n ∧
            path (heap st' !!! l) = n ∧ is_dir (disk st') n = true).
  { intros n l Hin. destruct (Hrec n l Hin) as [(Hold & Hobj & Hdir)|?]; [|done].
    destruct (manager_inv_elem_of st n l Hinv Hold) as (? & ? & ? & ?).
    rewrite Hobj. split_and!; [lia|done|done|by apply Hdir]. }
  split; [split; [done|]|]; apply Forall_forall; intros [n l] Hin;
    destruct (Hall n l Hin) as (? & ? & ? & ?); done.
Qed.

Lemma load_plugin_from_dir_inv dn st :
  manager_inv st → manager_inv (load_plugin_from_dir dn st).2.
Proof.
  intros Hinv.
  destruct (load_plugin_from_dir dn st) as [res st'] eqn:Hrun. cbn.
  pose proof (load_plugin_from_dir_wf dn st res st' (proj1 Hinv) Hrun) as Hwf'.
  destruct (load_plugin_from_dir_cases dn st)
    as (res' & st'' & Hrun' & Hdisk & _ & _ & Hnext & Hheap & Hres).
  rewrite Hrun in Hrun'. injection Hrun' as <- <-.
  apply (manager_inv_frame st); [done|apply Hwf'|lia|].
  intros n l Hin.
  assert (Hold : (n, l) ∈ plugins st →
            (n, l) ∈ plugins st ∧ heap st' !!! l = heap st !!! l ∧
            (is_dir (disk st) n = true → is_dir (disk st') n = true)).
  { intros Hin'. destruct (manager_inv_elem_of st n l Hinv Hin') as (Hl & _).
    split; [done|]. split; [|by rewrite Hdisk].
    apply lookup_total_frame, Hheap. lia. }
  destruct (load_error (disk st) dn) eqn:Herr.
  - destruct Hres as (_ & Htable & _). rewrite Htable in Hin. left. by apply Hold.
  - destruct Hres as (_ & Htable & _ & r & Hfile & _ & Hname & _).
    rewrite Htable in Hin.
    destruct (dict_set_elem_of_inv _ _ _ _ _ Hin) as [[-> ->]|Hin']; [|left; by apply Hold].
    right. destruct (table_wf_elem_of st' dn (next_loc st) Hwf') as [Hl _].
    { rewrite Htable. apply dict_set_elem_of_eq. }
    split_and!; [done|done| |rewrite Hdisk; by eapply dir_file_is_dir].
    pose proof (load_plugin_from_dir_eq dn st) as Heq. cbn zeta in Heq.
    rewrite Hrun, Hfile in Heq.
    unfold load_error in Herr. rewrite Hfile in Herr. cbn in Herr.
    destruct (reg_outcome r); [|done].
    injection Heq as _ ->. cbn. by rewrite lookup_total_insert_eq.
Qed.

Lemma load_all_plugins_inv st : manager_inv (load_all_plugins st).2.
Proof.
  unfold load_all_plugins, mbind, M_bind, bind, modify, gets.
  apply for_each_inv.
  - intros q s Hs.
    destruct (is_dir (disk s) q); [|done].
    unfold try_except.
    pose proof (load_plugin_from_dir_inv q s Hs) as Hq.
    destruct (load_plugin_from_dir q s) as [[[]|e] s1]; done.
  - split; [split|]; cbn; first [apply NoDup_nil_2|apply Forall_nil_2].
Qed.

Lemma install_plugin_inv scpl_path scpl st :
  manager_inv st → manager_inv (install_plugin scpl_path scpl st).2.
Proof.
  intros Hinv. unfold install_plugin.
  destruct scpl as [z|]; [|done].
  destruct (bool_decide _); [|done].
  unfold mbind, M_bind, bind, gets, extractall, modify.
  destruct (choose_dest (disk st) (scpl_stem z)) as [dest|]; [|done].
  match goal with |- context [load_plugin_from_dir dest ?s] =>
    assert (Hs : manager_inv s)
  end.
  { destruct Hinv as [Hwf Hall]. split; [done|].
    eapply Forall_impl; [apply Hall|]. cbn. intros [n l] [? ?].
    split; [done|]. by apply is_dir_insert. }
  pose proof (load_plugin_from_dir_inv dest _ Hs) as Hload.
  destruct (load_plugin_from_dir dest _) as [[[]|e] s1]; done.
Qed.

Lemma uninstall_plugin_inv n st :
  manager_inv st → manager_inv (uninstall_plugin n st).2.
Proof.
  intros Hinv. unfold uninstall_plugin, mbind, M_bind, bind, gets.
  destruct (dict_get n (plugins st)) as [l|] eqn:Hget; [|done].
  destruct (manager_inv_elem_of st n l Hinv (dict_get_Some _ _ _ Hget))
    as (_ & _ & Hpath & _).
  cbn beta iota. unfold modify, rmtree. cbn. unfold loc in *. rewrite Hpath.
  assert (Hkeep : ∀ fs', (∀ m, m ≠ n → is_dir (disk st) m = true → is_dir fs' m = true) →
    manager_inv (set_disk (λ _, fs') (set_plugins (dict_pop n) st))).
  { intros fs' Hfs. apply (manager_inv_frame st); [done| |done|].
    - cbn. apply dict_pop_NoDup, Hinv.
    - cbn. intros m l' [Hne Hin]%dict_pop_elem_of. left.
      split; [done|]. split; [done|]. by apply Hfs. }
  destruct (disk st !! n) as [[|files]|] eqn:Hn; cbn.
  - destruct st. apply (Hkeep _). done.
  - apply (Hkeep (delete n (disk st))). intros m Hm. by rewrite is_dir_delete.
  - destruct st. apply (Hkeep _). done.
Qed.

Lemma call_hook_inv h args st : manager_inv st → manager_inv (call_hook h args st).2.
Proof.
  intros Hinv.
  destruct (call_hook_spec h args st) as (cs & st' & -> & (Ht & Hh & Hn & Hd) & _).
  cbn. unfold manager_inv, table_wf. by rewrite Ht, Hh, Hn, Hd.
Qed.

(** X1: from the construction of the manager on, whatever calls of
    [load_all_plugins], [install_plugin], [uninstall_plugin] and
    [call_hook] follow and whether they return or raise, no name is twice
    in the plugin table, and every record is an allocated object filed
    under its own name, whose path is a directory on disk. *)
Theorem manager_inv_reachable fs (w : W) (os : list (@op W Args)) :
  manager_inv (run_ops os (PluginManager_init fs w)).
Proof.
  unfold run_ops, PluginManager_init.
  assert (Hgen : ∀ st : @state W Args, manager_inv st →
            manager_inv (foldl (λ s o, run_op o s) st os)).
  { induction os as [|o os IH]; intros st Hst; [done|].
    cbn [foldl]. apply IH. destruct o; cbn [run_op].
    - apply load_all_plugins_inv.
    - by apply install_plugin_inv.
    - by apply uninstall_plugin_inv.
    - by apply call_hook_inv. }
  apply Hgen, load_all_plugins_inv.
Qed.

End Invariant.

Section Lifecycle.
Context {W Args : Type}.
Implicit Types (st : @state W Args) (z : @scpl_archive W Args).
Implicit Types (fs : gmap string (@entry W Args)) (r : @reg_prog W Args).

Lemma dict_get_set_eq {V} k (v : V) d : dict_get k (dict_set k v d) = Some v.
Proof.
  induction d as [|[k1 v1] d IH]; cbn.
  - by rewrite decide_True.
  - destruct (decide (k1 = k)) as [->|Hne]; cbn.
    + by rewrite decide_True.
    + by rewrite decide_False.
Qed.

Lemma dict_get_set_ne {V} k (v : V) d k' : k' ≠ k → dict_get k' (dict_set k v d) = dict_get k' d.
Proof.
  intros Hne. induction d as [|[k1 v1] d IH]; cbn.
  - by rewrite decide_False.
  - destruct (decide (k1 = k)) as [->|Hk]; cbn.
    + by rewrite !decide_False.
    + by rewrite IH.
Qed.

Lemma dict_get_pop_ne {V} k (d : list (string * V)) k' :
  k' ≠ k → dict_get k' (dict_pop k d) = dict_get k' d.
Proof.
  intros Hne. induction d as [|[k1 v1] d IH]; cbn; [done|].
  destruct (decide (k1 = k)) as [->|Hk]; cbn.
  - by rewrite decide_False.
  - by rewrite IH.
Qed.

Lemma dict_pop_absent {V} k (d : list (string * V)) : k ∉ d.*1 → dict_pop k d = d.
Proof.
  induction d as [|[k1 v1] d IH]; cbn; [done|].
  rewrite not_elem_of_cons. intros [Hne Hd].
  rewrite decide_False by done. by rewrite IH.
Qed.

Lemma dict_pop_set {V} k (v : V) d : k ∉ d.*1 → dict_pop k (dict_set k v d) = d.
Proof.
  induction d as [|[k1 v1] d IH]; cbn.
  - by rewrite decide_True.
  - rewrite not_elem_of_cons. intros [Hne Hd].
    rewrite decide_False by done. cbn. rewrite decide_False by done.
    by rewrite IH.
Qed.

Lemma elem_of_keys_get {V} k (d : list (string * V)) : k ∈ d.*1 → is_Some (dict_get k d).
Proof.
  intros Hin. destruct (dict_get k d) eqn:Hget; [eauto|].
  by apply dict_get_None in Hget.
Qed.

(** Uninstalling a plugin of the table when the invariant holds. *)
Lemma uninstall_plugin_loaded n st :
  manager_inv st → n ∈ (plugins st).*1 →
  uninstall_plugin n st
    = (Return true, set_disk (delete n) (set_plugins (dict_pop n) st)).
Proof.
  intros Hinv [l Hget]%elem_of_keys_get.
  destruct (manager_inv_elem_of st n l Hinv (dict_get_Some _ _ _ Hget))
    as (_ & _ & Hpath & Hdir).
  unfold uninstall_plugin, mbind, M_bind, bind, gets. rewrite Hget.
  cbn beta iota. unfold modify, rmtree. cbn. unfold loc in *. rewrite Hpath.
  unfold is_dir in Hdir. by destruct (disk st !! n) as [[|files]|].
Qed.


(** A successful install, in closed form. *)
Lemma install_plugin_Return scpl_path z dest st st1 :
  install_plugin scpl_path (Some z) st = (Return dest, st1) →
  disk st !! dest = None ∧
  disk st1 = <[dest := Directory (extracted z)]> (disk st) ∧
  plugins st1 = dict_set dest (next_loc st) (plugins st) ∧
  loads (disk st1) dest = true.
Proof.
  intros Hrun.
  destruct (decide ("plugin-main.py" ∈ namelist z)) as [Hmain|Hmain].
  2:{ unfold install_plugin in Hrun. by rewrite bool_decide_eq_false_2 in Hrun. }
  destruct (install_plugin_eq scpl_path z st Hmain) as (k & Hfree & _ & Heq).
  cbn zeta in Heq. rewrite Hrun in Heq.
  destruct (load_plugin_from_dir_cases (candidate (scpl_stem z) k)
              (set_disk (<[candidate (scpl_stem z) k := Directory (extracted z)]>) st))
    as (res & st2 & Hload & Hdisk & _ & _ & _ & _ & Hres).
  rewrite Hload in Heq. cbn [fst snd] in Heq.
  destruct (load_error _ _) as [e|] eqn:Herr in Hres.
  - destruct Hres as (-> & _). done.
  - destruct Hres as (-> & Htable & _). injection Heq as -> ->.
    split; [by apply path_exists_false|].
    split; [done|]. split; [done|].
    unfold loads. by rewrite Hdisk, Herr.
Qed.

(** X3: installing an archive and then uninstalling the plugin it
    created undoes the install: with the invariant of the manager, the
    uninstall returns [True] and the disk and the plugin table are what
    they were before the install. *)
Theorem install_uninstall_round_trip scpl_path z dest st st1 :
  manager_inv st →
  install_plugin scpl_path (Some z) st = (Return dest, st1) →
  ∃ st2,
    uninstall_plugin dest st1 = (Return true, st2) ∧
    disk st2 = disk st ∧
    plugins st2 = plugins st.
Proof.
  intros Hinv Hrun.
  destruct (install_plugin_Return _ _ _ _ _ Hrun) as (Hfresh & Hdisk & Htable & _).
  assert (Hinv1 : manager_inv st1).
  { pose proof (install_plugin_inv scpl_path (Some z) st Hinv) as H.
    by rewrite Hrun in H. }
  assert (Hnew : dest ∉ (plugins st).*1).
  { intros ([n l] & -> & Hin)%list_elem_of_fmap.
    destruct (manager_inv_elem_of st n l Hinv Hin) as (_ & _ & _ & Hdir).
    unfold is_dir in Hdir. cbn in Hfresh. by rewrite Hfresh in Hdir. }
  eexists. split.
  { apply uninstall_plugin_loaded; [done|].
    rewrite Htable, dict_set_keys, decide_False by done.
    apply elem_of_app. right. by apply list_elem_of_singleton. }
  cbn. rewrite Hdisk, Htable. split.
  - by apply delete_insert_id.
  - by apply dict_pop_set.
Qed.

(** X6: a successful [load_plugin_from_dir] files the new object under
    the directory's name: a name that was in the table keeps its place
    and no name occurs twice because of the load, a new name goes last,
    and the records of all other names are the ones before. *)
Theorem load_plugin_from_dir_table dn st st' :
  load_plugin_from_dir dn st = (Return tt, st') →
  (plugins st').*1
    = (if decide (dn ∈ (plugins st).*1) then (plugins st).*1
       else (plugins st).*1 ++ [dn]) ∧
  dict_get dn (plugins st') = Some (next_loc st) ∧
  name (heap st' !!! next_loc st) = dn ∧
  (∀ m, m ≠ dn → dict_get m (plugins st') = dict_get m (plugins st)) ∧
  (∀ l, l ≠ next_loc st → heap st' !! l = heap st !! l).
Proof.
  intros Hrun.
  destruct (load_plugin_from_dir_cases dn st)
    as (res & st'' & Hrun' & _ & _ & _ & _ & Hheap & Hres).
  rewrite Hrun in Hrun'. injection Hrun' as <- <-.
  destruct (load_error (disk st) dn); [by destruct Hres|].
  destruct Hres as (_ & -> & _ & r & _ & _ & Hname & _).
  split; [apply dict_set_keys|]. split; [apply dict_get_set_eq|].
  split; [done|]. split; [|done].
  intros m Hm. by apply dict_get_set_ne.
Qed.

(** X7: whatever calls of [register_hook] a registration function makes
    on its capability object, and also when it raises after some of
    them, the list of each hook name afterwards is the list before
    followed by the values registered under that name, in the order of
    the calls and with repetitions kept; the plugin table, the disk and
    every other object are untouched. *)
Theorem run_register_appends r (api : PluginAPI) (p : @Plugin W Args) st :
  heap st !! _plugin api = Some p →
  ∃ st',
    run_register r api st = (to_result (reg_outcome r), st') ∧
    (∀ h, funcs_of (heap st' !!! _plugin api) h = funcs_of p h ++ registered_for h r) ∧
    name (heap st' !!! _plugin api) = name p ∧
    path (heap st' !!! _plugin api) = path p ∧
    (∀ l, l ≠ _plugin api → heap st' !! l = heap st !! l) ∧
    plugins st' = plugins st ∧ disk st' = disk st ∧ next_loc st' = next_loc st.
Proof.
  intros Hp. eexists. split; [by apply run_register_eq|]. cbn.
  rewrite lookup_total_insert_eq. cbn.
  split; [intros h; apply hooks_after_lookup|].
  split_and!; try done.
  intros l Hl. by rewrite lookup_insert_ne.
Qed.

End Lifecycle.

Section Reload.
Context {W Args : Type}.
Implicit Types (st : @state W Args) (z : @scpl_archive W Args).
Implicit Types (fs : gmap string (@entry W Args)).

Lemma load_all_loop_names (ns : list string) st :
  NoDup ns → (∀ n, n ∈ ns → n ∉ (plugins st).*1) →
  ∃ st',
    for_each ns (λ q,
      d ← gets (λ st, is_dir (disk st) q);
      if (d : bool) then
        try_except (load_plugin_from_dir q)
          (λ e, print ("Failed loading plugin " +:+ str_path q +:+ " " +:+ exn_str e))
      else ret tt) st = (Return tt, st') ∧
    disk st' = disk st ∧
    (plugins st').*1 = (plugins st).*1 ++ filter (λ n, loads (disk st) n) ns.
Proof.
  revert st. induction ns as [|q ns IH]; intros st Hnd Hnew.
  - exists st. by rewrite filter_nil, app_nil_r.
  - apply NoDup_cons in Hnd as [Hq Hnd].
    destruct (load_all_step q st)
      as (st1 & Hrun & Hdisk & _ & _ & _ & _ & _ & Htable).
    assert (Hkeys : (plugins st1).*1
              = (plugins st).*1 ++ (if loads (disk st) q then [q] else [])).
    { rewrite Htable. destruct (loads (disk st) q); [|by rewrite app_nil_r].
      rewrite dict_set_keys, decide_False; [done|].
      apply Hnew, elem_of_cons. by left. }
    destruct (IH st1 Hnd) as (st2 & Hrest & Hdisk2 & Hnames).
    { intros n Hn. rewrite Hkeys, elem_of_app. intros [Hin|Hin].
      - by apply (Hnew n); [apply elem_of_cons; right|].
      - destruct (loads (disk st) q); [|by apply not_elem_of_nil in Hin].
        apply list_elem_of_singleton in Hin as ->. done. }
    exists st2. split.
    { cbn [for_each]. unfold mbind at 1, M_bind at 1, bind at 1. by rewrite Hrun. }
    split; [congruence|].
    rewrite Hnames, Hkeys, Hdisk, <-app_assoc, filter_cons.
    by destruct (loads (disk st) q).
Qed.

(** The names of the table after a discovery, in order. *)
Lemma load_all_plugins_names st :
  ∃ st',
    load_all_plugins st = (Return tt, st') ∧
    disk st' = disk st ∧
    (plugins st').*1 = filter (λ n, loads (disk st) n) (iterdir (disk st)).
Proof.
  destruct (load_all_loop_names (iterdir (disk st)) (set_plugins (λ _, []) st))
    as (st' & Hrun & Hdisk & Hnames).
  - apply NoDup_fst_map_to_list.
  - intros n _. apply not_elem_of_nil.
  - exists st'. by split.
Qed.

Lemma loads_delete fs n m :
  loads (delete n fs) m = if decide (m = n) then false else loads fs m.
Proof.
  unfold loads, load_error, dir_file. destruct (decide (m = n)) as [->|Hne].
  - by rewrite lookup_delete_eq.
  - by rewrite lookup_delete_ne.
Qed.




Lemma install_plugin_Raise scpl_path scpl e st st1 :
  install_plugin scpl_path scpl st = (Raise e, st1) → plugins st1 = plugins st.
Proof.
  destruct scpl as [z|]; [|by intros [= _ <-]].
  destruct (decide ("plugin-main.py" ∈ namelist z)) as [Hmain|Hmain].
  2:{ unfold install_plugin. rewrite bool_decide_eq_false_2 by done. by intros [= _ <-]. }
  destruct (install_plugin_eq scpl_path z st Hmain) as (k & _ & _ & Heq).
  cbn zeta in Heq. rewrite Heq.
  destruct (load_plugin_from_dir_cases (candidate (scpl_stem z) k)
              (set_disk (<[candidate (scpl_stem z) k := Directory (extracted z)]>) st))
    as (res & st2 & Hload & _ & _ & _ & _ & _ & Hres).
  rewrite Hload. cbn [fst snd].
  destruct (load_error _ _) as [e'|].
  - destruct Hres as (-> & Htable & _). by intros [= _ <-].
  - destruct Hres as (-> & _). done.
Qed.



End Reload.

Section AdapterProperties.
Context {W V : Type}.
Implicit Types (st : @state W (@hook_args V)) (path name : V).
Implicit Types (kwargs : list (string * V)).

(** What a dispatch of the adapter does: the callbacks of the table
    for the hook are applied in order to the arguments, up to the first
    that raises outside [Exception], whose exception is the result. *)
Lemma strict_call_hook_runs h (args : @hook_args V) st :
  ∃ cs w esc st',
    run_callbacks is_Exception (dispatch_targets st h args) (world st) = (cs, w, esc) ∧
    Strict.call_hook h args st = (from_option Raise (Return tt) esc, st') ∧
    calls st' = calls st ++ cs ∧ world st' = w.
Proof.
  pose proof (strict_call_hook_eq h args st) as Hrun.
  destruct (run_callbacks is_Exception (dispatch_targets st h args) (world st))
    as [[cs w] esc]. cbn [fst snd] in Hrun.
  by eexists cs, w, esc, _.
Qed.


End AdapterProperties.

(** * The editor's gutter and the choice of a language *)

Lemma pretty_N_go_length (d : nat) (x : N) (s : string) :
  (10 ^ N.of_nat d ≤ x < 10 ^ N.of_nat (S d))%N →
  String.length (pretty_N_go x s) = S d + String.length s.
Proof.
  revert x s. induction d as [|d IH]; intros x s Hx.
  - change (10 ^ N.of_nat 0)%N with 1%N in Hx.
    change (10 ^ N.of_nat 1)%N with 10%N in Hx.
    rewrite pretty_N_go_step by lia.
    rewrite N.div_small by lia. by rewrite pretty_N_go_0.
  - rewrite !Nat2N.inj_succ, !N.pow_succ_r' in Hx.
    rewrite pretty_N_go_step by lia.
    rewrite IH; [cbn; lia|].
    rewrite Nat2N.inj_succ, N.pow_succ_r'. split.
    + apply N.div_le_lower_bound; lia.
    + apply N.Div0.div_lt_upper_bound. lia.
Qed.

Lemma pretty_N_length (d : nat) (x : N) :
  (10 ^ N.of_nat d ≤ x < 10 ^ N.of_nat (S d))%N →
  String.length (pretty x) = S d.
Proof.
  intros Hx. unfold pretty, pretty_N.
  assert (0 < 10 ^ N.of_nat d)%N by (apply N.neq_0_lt_0, N.pow_nonzero; lia).
  rewrite decide_False by lia.
  rewrite (pretty_N_go_length d) by done. cbn. lia.
Qed.

Lemma decimal_magnitude (x : N) :
  (0 < x)%N → ∃ d : nat, (10 ^ N.of_nat d ≤ x < 10 ^ N.of_nat (S d))%N.
Proof.
  induction (N.lt_wf_0 x) as [x _ IH]. intros Hx.
  destruct (decide (x < 10)%N) as [Hlt|Hge].
  - exists 0. change (10 ^ N.of_nat 0)%N with 1%N.
    change (10 ^ N.of_nat 1)%N with 10%N. lia.
  - assert (Hdm : x = (10 * (x / 10) + x mod 10)%N) by (apply N.div_mod; lia).
    assert (Hm : (x mod 10 < 10)%N) by (apply N.mod_lt; lia).
    destruct (IH (x / 10)%N) as [d Hd].
    + apply N.div_lt; lia.
    + apply N.div_str_pos. lia.
    + exists (S d). rewrite !Nat2N.inj_succ, !N.pow_succ_r' in *.
      generalize dependent (10 ^ N.of_nat d)%N. intros p Hp.
      generalize dependent (x / 10)%N. intros q.
      generalize dependent (x mod 10)%N. intros m. clear IH. lia.
Qed.

Lemma pretty_N_length_mono (k n : N) :
  (0 < k ≤ n)%N → String.length (pretty k) ≤ String.length (pretty n).
Proof.
  intros [Hk Hkn].
  destruct (decimal_magnitude k Hk) as [dk Hdk].
  destruct (decimal_magnitude n) as [dn Hdn]; [lia|].
  rewrite (pretty_N_length dk), (pretty_N_length dn) by done.
  assert (10 ^ N.of_nat dk < 10 ^ N.of_nat (S dn))%N as Hpow by lia.
  apply N.pow_lt_mono_r_iff in Hpow; lia.
Qed.

Lemma pretty_Z_pos (x : Z) : (0 < x)%Z → pretty x = pretty (Z.to_N x).
Proof. by destruct x. Qed.

(** X12: the gutter widens exactly at the powers of ten: for a block
    count of [d + 1] decimal digits the width is 14 plus [d + 1] times
    the advance of the digit 9, and a block count below 1 counts as 1. *)
Theorem line_number_width_digits (advance9 blockCount : Z) (d : nat) :
  (10 ^ Z.of_nat d ≤ Z.max 1 blockCount < 10 ^ Z.of_nat (S d))%Z →
  line_number_width advance9 blockCount = (14 + advance9 * Z.of_nat (S d))%Z.
Proof.
  intros Hb. unfold line_number_width.
  rewrite pretty_Z_pos by lia.
  rewrite (pretty_N_length d); [done|].
  rewrite <-(Z2N.id (Z.max 1 blockCount)) in Hb by lia.
  rewrite <-!nat_N_Z in Hb.
  change 10%Z with (Z.of_N 10) in Hb.
  rewrite <-!N2Z.inj_pow in Hb. lia.
Qed.

(** X13: the gutter is sized for every line number it shows: for each
    line number from 1 to the block count, the digits of the number,
    each as wide as the digit 9, fit into the width less its 14 pixels
    of margin. *)
Theorem line_number_width_fits (advance9 blockCount k : Z) :
  (0 ≤ advance9)%Z → (1 ≤ k ≤ blockCount)%Z →
  (14 + advance9 * Z.of_nat (String.length (pretty k))
   ≤ line_number_width advance9 blockCount)%Z.
Proof.
  intros Hadv Hk. unfold line_number_width.
  rewrite !pretty_Z_pos by lia.
  pose proof (pretty_N_length_mono (Z.to_N k) (Z.to_N (Z.max 1 blockCount))) as Hmono.
  assert (String.length (pretty (Z.to_N k))
          ≤ String.length (pretty (Z.to_N (Z.max 1 blockCount)))) by (apply Hmono; lia).
  nia.
Qed.

(** X14: whatever the file name and whatever suffix the path library
    finds in it, [language_for_filename] answers one of the three
    languages of [LANG_RULES], so the highlighter built for it has
    rules; it answers [python] for the empty file name and for every
    suffix that [EXT_MAP] does not list. *)
Theorem language_for_filename_has_rules (suffix_lower : string → string) (fname : string) :
  language_for_filename suffix_lower fname ∈ LANG_RULES.*1 ∧
  highlighter_rules (language_for_filename suffix_lower fname) ≠ [] ∧
  (fname = "" → language_for_filename suffix_lower fname = "python") ∧
  (suffix_lower fname ∉ EXT_MAP.*1 → language_for_filename suffix_lower fname = "python").
Proof.
  assert (Hget : ∀ ext,
    default "python" (dict_get ext EXT_MAP) ∈ LANG_RULES.*1 ∧
    highlighter_rules (default "python" (dict_get ext EXT_MAP)) ≠ [] ∧
    (ext ∉ EXT_MAP.*1 → default "python" (dict_get ext EXT_MAP) = "python")).
  { intros ext. cbn [dict_get EXT_MAP].
    repeat (case_match; [cbn; split; [compute_done|split; [done|]]; intros Hin;
                         destruct Hin; subst ext; compute_done|]).
    cbn. split; [compute_done|]. by split. }
  unfold language_for_filename. cbn zeta.
  destruct (Hget (if decide (fname = "") then "" else suffix_lower fname)) as (H1 & H2 & H3).
  split; [done|]. split; [done|]. split.
  - intros ->. by rewrite decide_True.
  - intros Hext. destruct (decide (fname = "")); [done|]. by apply H3.
Qed.

Section Destination.
Context {W Args : Type}.
Implicit Types (fs : gmap string (@entry W Args)).

Lemma append_self_inv (base s : string) : base +:+ s = base → s = "".
Proof. induction base as [|a base IH]; cbn; [done|]. intros [= Heq]. by apply IH. Qed.

#[local] Instance candidate_inj base : Inj (=) (=) (candidate base).
Proof.
  intros [|i] [|j] Heq; [done| | |].
  - symmetry in Heq. by apply append_self_inv in Heq.
  - by apply append_self_inv in Heq.
  - unfold candidate in Heq.
    apply (inj (String.append base)), (inj (String.append "_")) in Heq.
    by apply (inj pretty) in Heq.
Qed.

(** Of a name of its own, fewer tried names exist than the disk has
    entries, the first one included. *)
Lemma candidates_bounded_proper fs base n :
  base ∉ [""; "."; ".."] →
  (∀ i, i < n → path_exists fs (candidate base i) = true) → n ≤ size fs.
Proof.
  intros Hbase Hall.
  set (C := candidate base <$> seq 0 n).
  assert (Hnd : NoDup C) by apply (NoDup_fmap_2 _), NoDup_seq.
  assert (Hsub : list_to_set (C:=gset string) C ⊆ dom fs).
  { intros x [i [-> Hi%elem_of_seq]]%elem_of_list_to_set%list_elem_of_fmap.
    apply elem_of_dom. destruct i as [|i].
    - specialize (Hall 0 ltac:(lia)). unfold path_exists, candidate in Hall.
      rewrite bool_decide_eq_false_2 in Hall by done.
      by apply bool_decide_eq_true in Hall.
    - apply candidate_S_exists, Hall. lia. }
  apply subseteq_size in Hsub.
  rewrite size_list_to_set, size_dom in Hsub by done.
  subst C. by rewrite length_fmap, length_seq in Hsub.
Qed.

(** The loop by the number of runs of its body that it is given. *)
Lemma while_exists_fuel fuel fs base k j :
  k ≤ j → path_exists fs (candidate base j) = false →
  (∀ i, k ≤ i < j → path_exists fs (candidate base i) = true) →
  while_exists fuel fs base (candidate base k) (S k)
    = if decide (j - k ≤ fuel) then Some (candidate base j) else None.
Proof.
  revert k. induction fuel as [|fuel IH]; intros k Hkj Hfree Hbelow; cbn [while_exists].
  - destruct (decide (k = j)) as [->|Hne].
    + rewrite Hfree, decide_True by lia. done.
    + rewrite Hbelow, decide_False by lia. done.
  - destruct (decide (k = j)) as [->|Hne].
    + rewrite Hfree, decide_True by lia. done.
    + rewrite Hbelow by lia.
      change (base +:+ "_" +:+ pretty (S k)) with (candidate base (S k)).
      rewrite (IH (S k)); [|lia|done|intros i Hi; apply Hbelow; lia].
      destruct (decide (j - S k ≤ fuel)), (decide (j - k ≤ S fuel)); done || lia.
Qed.

(** X15: the loop of [install_plugin] that looks for a free name ends
    after a number [k] of runs of its body (one test of [dest.exists()]
    more): given fewer runs it has not ended, given as many or more it
    has, with the name of index [k], the least of [base], [base_1],
    [base_2], ... that does not exist.  [k] is at most one more than
    the plugins root has entries, and at most as many when [base] is a
    name of its own (not empty, [.] or [..], which exist with no entry
    of theirs). *)
Theorem choose_dest_bounded fs base :
  ∃ k,
    (∀ fuel, while_exists fuel fs base base 1
               = if decide (k ≤ fuel) then Some (candidate base k) else None) ∧
    choose_dest fs base = Some (candidate base k) ∧
    path_exists fs (candidate base k) = false ∧
    (∀ j, path_exists fs (candidate base j) = false → k ≤ j) ∧
    k ≤ S (size fs) ∧
    (base ∉ [""; "."; ".."] → k ≤ size fs).
Proof.
  destruct (choose_dest_spec fs base) as (k & Hrun & Hfree & Hbelow).
  exists k. split.
  { intros fuel. change base with (candidate base 0) at 2.
    rewrite (while_exists_fuel fuel fs base 0 k); [|lia|done|intros i Hi; apply Hbelow; lia].
    by rewrite Nat.sub_0_r. }
  split; [done|]. split; [done|]. split.
  { intros j Hj. destruct (decide (k ≤ j)) as [|Hlt]; [done|].
    rewrite Hbelow in Hj by lia. done. }
  split.
  - destruct k as [|k]; [lia|].
    assert (k ≤ size fs); [|lia].
    apply (candidates_bounded fs base). intros i Hi. apply Hbelow. lia.
  - intros Hbase. by apply (candidates_bounded_proper fs base).
Qed.

End Destination.

(** * The further theorems at work on the example directory *)


Lemma install_uninstall_round_trip_witness :
  manager_inv ex_st ∧
  install_plugin "/tmp/a.scpl" (Some ex_scpl) ex_st
    = (Return "a_1", (install_plugin "/tmp/a.scpl" (Some ex_scpl) ex_st).2) ∧
  ∃ st2,
    uninstall_plugin "a_1" (install_plugin "/tmp/a.scpl" (Some ex_scpl) ex_st).2
      = (Return true, st2) ∧
    disk st2 = disk ex_st ∧
    plugins st2 = plugins ex_st.
Proof.
  assert (Hinv : manager_inv ex_st) by (apply (bool_decide_unpack _); vm_compute; exact I).
  assert (Hrun : install_plugin "/tmp/a.scpl" (Some ex_scpl) ex_st
                 = (Return "a_1", (install_plugin "/tmp/a.scpl" (Some ex_scpl) ex_st).2))
    by (vm_compute; reflexivity).
  split; [exact Hinv|]. split; [exact Hrun|].
  exact (install_uninstall_round_trip "/tmp/a.scpl" ex_scpl "a_1" ex_st _ Hinv Hrun).
Defined.

Lemma load_plugin_from_dir_table_witness :
  load_plugin_from_dir "b" ex_st = (Return tt, (load_plugin_from_dir "b" ex_st).2) ∧
  (plugins (load_plugin_from_dir "b" ex_st).2).*1
    = (if decide ("b" ∈ (plugins ex_st).*1) then (plugins ex_st).*1
       else (plugins ex_st).*1 ++ ["b"]) ∧
  dict_get "b" (plugins (load_plugin_from_dir "b" ex_st).2) = Some (next_loc ex_st) ∧
  name (heap (load_plugin_from_dir "b" ex_st).2 !!! next_loc ex_st) = "b" ∧
  (∀ m, m ≠ "b" →
     dict_get m (plugins (load_plugin_from_dir "b" ex_st).2) = dict_get m (plugins ex_st)) ∧
  (∀ l, l ≠ next_loc ex_st →
     heap (load_plugin_from_dir "b" ex_st).2 !! l = heap ex_st !! l).
Proof.
  assert (Hrun : load_plugin_from_dir "b" ex_st
                 = (Return tt, (load_plugin_from_dir "b" ex_st).2))
    by (vm_compute; reflexivity).
  split; [exact Hrun|].
  exact (load_plugin_from_dir_table "b" ex_st _ Hrun).
Defined.

Lemma run_register_appends_witness :
  heap ex_st !! 1 = Some (heap ex_st !!! 1) ∧
  ∃ st',
    run_register ex_partial {| _plugin := 1 |} ex_st
      = (to_result (reg_outcome ex_partial), st') ∧
    (∀ h, funcs_of (heap st' !!! 1) h
          = funcs_of (heap ex_st !!! 1) h ++ registered_for h ex_partial) ∧
    name (heap st' !!! 1) = name (heap ex_st !!! 1) ∧
    path (heap st' !!! 1) = path (heap ex_st !!! 1) ∧
    (∀ l, l ≠ 1 → heap st' !! l = heap ex_st !! l) ∧
    plugins st' = plugins ex_st ∧ disk st' = disk ex_st ∧ next_loc st' = next_loc ex_st.
Proof.
  assert (Hp : heap ex_st !! 1 = Some (heap ex_st !!! 1)) by (vm_compute; reflexivity).
  split; [exact Hp|].
  exact (run_register_appends ex_partial {| _plugin := 1 |} _ ex_st Hp).
Defined.



Lemma line_number_width_digits_witness :
  (10 ^ Z.of_nat 2 ≤ Z.max 1 120 < 10 ^ Z.of_nat 3)%Z ∧
  line_number_width 8 120 = (14 + 8 * Z.of_nat 3)%Z.
Proof.
  assert (H : (10 ^ Z.of_nat 2 ≤ Z.max 1 120 < 10 ^ Z.of_nat 3)%Z) by (cbn; lia).
  split; [exact H|].
  exact (line_number_width_digits 8 120 2 H).
Defined.

Lemma line_number_width_fits_witness :
  (0 ≤ 8)%Z ∧ (1 ≤ 99 ≤ 120)%Z ∧
  (14 + 8 * Z.of_nat (String.length (pretty 99%Z)) ≤ line_number_width 8 120)%Z.
Proof.
  assert (H1 : (0 ≤ 8)%Z) by lia.
  assert (H2 : (1 ≤ 99 ≤ 120)%Z) by lia.
  split; [exact H1|]. split; [exact H2|].
  exact (line_number_width_fits 8 120 99 H1 H2).
Defined.

(** After construction on the example directory, the reload box lists
    the two plugins that load. *)
Example ex_reload_box :
  (Scriptor_reload_plugins None ex_st).1
    = Return (information "Plugins reloaded" "Loaded plugins: a, b").
Proof. vm_compute. reflexivity. Qed.

(** With the plugins root deleted, the reload box is the warning and
    the manager has lost its two plugins. *)
Example ex_reload_no_root :
  Scriptor_reload_plugins
    (Some (FileNotFoundError "[Errno 2] No such file or directory: 'plugins'")) ex_st
    = (Return (warning "Reload failed" "[Errno 2] No such file or directory: 'plugins'"),
       set_plugins (λ _, []) ex_st) ∧
  (plugins ex_st).*1 = ["a"; "b"].
Proof. split; vm_compute; reflexivity. Qed.

Example ex_line_number_width :
  line_number_width 8 0 = 22%Z ∧ line_number_width 8 9 = 22%Z ∧
  line_number_width 8 10 = 30%Z ∧ line_number_width 8 1000 = 46%Z.
Proof. split_and!; vm_compute; reflexivity. Qed.
